(** * Grasping pipeline: grasp execution and collision-environment servers

    A shallow embedding of
    - [scripts/execute_grasp_action_server.py] ([ExecuteGraspServer], [qv_mult]),
    - [src/collision_environment.py] ([CreateCollisionEnvironmentServer],
      [CreateCollisionObjects]),
    - [scripts/no_map_statemachine.py] ([UserInput], the state machine of
      [main]).

    Conventions.
    - Python floats are read as exact rationals ([Q]); the decimal literals of
      the source are the corresponding fractions.
    - ROS messages are records; a message that the source mutates in place is
      threaded through the function that mutates it and returned.
    - The robot, the planner, tf, the planning scene and the action servers
      are collaborators outside the repository.  What the code reads from them
      is an oracle, what it sends to them is logged as a [Command] or applied
      to an abstract scene ([SceneEnv]); exceptions raised inside a
      collaborator are outside the model. *)

From Stdlib Require Import QArith Qround Lqa ZArith Lia List String Bool.
From Stdlib Require Import DecimalString DecimalNat.
Import ListNotations.
Open Scope string_scope.
Open Scope list_scope.
Open Scope Q_scope.

(** ** Numbers *)

Definition Qlt_bool (x y : Q) : bool := negb (Qle_bool y x).

(** Python's [str(n)] for a non-negative integer. *)
Definition str (n : nat) : string := NilEmpty.string_of_uint (Nat.to_uint n).

(** ** geometry_msgs and friends *)

Record Vector3 := mkVector3 { vx : Q; vy : Q; vz : Q }.

Record Quaternion := mkQuaternion { qx : Q; qy : Q; qz : Q; qw : Q }.

Record Pose := mkPose { position : Vector3; orientation : Quaternion }.

Record Header := mkHeader { stamp : Q; frame_id : string }.

Record PoseStamped := mkPoseStamped { header : Header; pose : Pose }.

(** A freshly constructed [Pose()] has every field zero. *)
Definition Pose_default : Pose :=
  mkPose (mkVector3 0 0 0) (mkQuaternion 0 0 0 0).

(** vision_msgs/BoundingBox3D: a centre pose and a size. *)
Record BoundingBox3D := mkBoundingBox3D { center : Pose; size : Vector3 }.

(** A trajectory waypoint: one value per joint. *)
Definition JointTrajectoryPoint := list Q.

(** ** tf.transformations *)

Module Tf.

(** [numpy.finfo(float).eps * 4.0] *)
Definition _EPS : Q := 1 # (2 ^ 50).

Definition Matrix3 := (Vector3 * Vector3 * Vector3)%type.

Definition identity3 : Matrix3 :=
  (mkVector3 1 0 0, mkVector3 0 1 0, mkVector3 0 0 1).

(** [quaternion_matrix(q)[:3, :3]] for [q = [x, y, z, w]].  The library
    scales [q] by [sqrt(2 / nq)] and takes the outer product, so each entry
    of the product is [2 * qi * qj / nq]. *)
Definition quaternion_matrix (q : Quaternion) : Matrix3 :=
  let nq := qx q * qx q + qy q * qy q + qz q * qz q + qw q * qw q in
  if Qlt_bool nq _EPS then identity3
  else
    let o (a b : Q) := 2 * a * b / nq in
    let q00 := o (qx q) (qx q) in let q01 := o (qx q) (qy q) in
    let q02 := o (qx q) (qz q) in let q03 := o (qx q) (qw q) in
    let q11 := o (qy q) (qy q) in let q12 := o (qy q) (qz q) in
    let q13 := o (qy q) (qw q) in let q22 := o (qz q) (qz q) in
    let q23 := o (qz q) (qw q) in
    (mkVector3 (1 - q11 - q22) (q01 - q23) (q02 + q13),
     mkVector3 (q01 + q23) (1 - q00 - q22) (q12 - q03),
     mkVector3 (q02 - q13) (q12 + q03) (1 - q00 - q11)).

(** [rot_mat.dot(v)] *)
Definition dot (m : Matrix3) (v : Vector3) : Vector3 :=
  let '(r0, r1, r2) := m in
  let row r := vx r * vx v + vy r * vy v + vz r * vz v in
  mkVector3 (row r0) (row r1) (row r2).

End Tf.

(** [qv_mult(q, v)]: rotate [v] by the quaternion [q]. *)
Definition qv_mult (q : Quaternion) (v : Vector3) : Vector3 :=
  Tf.dot (Tf.quaternion_matrix q) v.

(** ** scripts/execute_grasp_action_server.py *)

Module ExecuteGraspServer.

Inductive CollisionMethod := ADD | REMOVE | ATTACH | DETACH.

(** The collision object message this server fills in and sends to the
    [PlacementCollisionEnvironment] action. *)
Record CollisionObject := mkCollisionObject {
  co_pose : Pose;
  size_x : Q;
  size_y : Q;
  size_z : Q;
  name : string;
  frame : string;
  method : CollisionMethod
}.

(** open3d's [OrientedBoundingBox], as far as the server uses it. *)
Record OrientedBoundingBox := mkOBB { obb_center : Vector3; extent : Vector3 }.

Definition ros_bb_to_o3d_bb (ros_bb : BoundingBox3D) : OrientedBoundingBox :=
  mkOBB (position (center ros_bb)) (size ros_bb).

Record ExecuteGraspResult := mkResult { success : bool }.

(** How [execute] leaves the action server. *)
Inductive ServerCall :=
| set_succeeded (result : option ExecuteGraspResult)
| set_aborted (result : option ExecuteGraspResult).

(** The result the action client receives: actionlib substitutes the
    default result (every field zero) when none is passed. *)
Definition reported (c : ServerCall) : ExecuteGraspResult :=
  match c with
  | set_succeeded (Some r) | set_aborted (Some r) => r
  | set_succeeded None | set_aborted None => mkResult false
  end.

(** Everything the server sends to a collaborator, in program order. *)
Inductive Command :=
| SceneAddBox (box_name : string) (at_ : Vector3) (size_ : Vector3)
| SendCollisionGoal (collisionObject_list : list CollisionObject)
| ClearOctomap
| Sleep (seconds : Q)
| AddMarker (pose_goal : PoseStamped)
| SetPoseTarget (target : PoseStamped)
| MoveGroupPlan
| MoveGroupStop
| ClearPoseTargets
| MoveGroupGo
| MoveEndEffectorByLine (axis : Vector3) (distance : Q)
| MoveEndEffectorPose (target : Vector3 * Quaternion)
| OmniBaseGoRel (x y yaw timeout : Q)
| MoveToNeutral
| GripperApplyForce (effort : Q)
| GripperCommand (open_angle : Q).

(** The commands that make the arm, the base or the gripper move. *)
Definition is_motion_command (c : Command) : bool :=
  match c with
  | MoveGroupGo | MoveEndEffectorByLine _ _ | MoveEndEffectorPose _
  | OmniBaseGoRel _ _ _ _ | MoveToNeutral
  | GripperApplyForce _ | GripperCommand _ => true
  | _ => false
  end.

(** What the server reads from its collaborators. *)
Record Collaborators := mkCollaborators {
  (** [rospy.get_param("/safety_distance", ...)] before the default *)
  param_safety_distance : option Q;
  (** [tf.getLatestCommonTime(target, source)] *)
  getLatestCommonTime : string -> string -> Q;
  (** [tf.transformPose(target, pose)] *)
  transformPose : string -> PoseStamped -> PoseStamped;
  (** [move_group.plan()[1].joint_trajectory.points] for the pose target *)
  plan_points : PoseStamped -> list JointTrajectoryPoint;
  (** [whole_body.get_end_effector_pose(frame)] after the grasp *)
  get_end_effector_pose : string -> Vector3 * Quaternion;
  (** [gripper.get_distance()] after the second [apply_force] *)
  get_distance : Q;
  (** [omni_base.get_pose()]: position and orientation of the base *)
  omni_base_pose : Vector3 * Quaternion;
  (** the table plane extractor's boxes, [None] for a [ServiceException] *)
  table_plane_extractor : option (list BoundingBox3D)
}.

Section Server.

Variable env : Collaborators.

(** [add_box] followed by [create_collision_environment]. *)
Definition add_box (box_name : string) (position_x position_y position_z
                    sx sy sz : Q) : list Command :=
  [Sleep 0.2;
   SceneAddBox box_name (mkVector3 position_x position_y position_z)
               (mkVector3 sx sy sz)].

Definition create_collision_environment : list Command :=
  add_box "floor" 0 0 (-0.1) 15 15 0.1.

(** The loop of [get_table_collision_object]. *)
Fixpoint table_boxes (boxes : list BoundingBox3D) : list OrientedBoundingBox :=
  match boxes with
  | [] => []
  | ros_bb :: rest =>
      let bb_cloud := ros_bb_to_o3d_bb ros_bb in
      if Qlt_bool (vz (obb_center bb_cloud)) 0.2 then table_boxes rest
      else
        let bb_cloud_mod := bb_cloud in
        let new_center :=
          mkVector3 (vx (obb_center bb_cloud_mod)) (vy (obb_center bb_cloud_mod))
                    ((vz (obb_center bb_cloud_mod)
                      + vz (extent bb_cloud_mod) / 2) / 2) in
        let bb_cloud_mod := mkOBB new_center (extent bb_cloud_mod) in
        let new_extent :=
          mkVector3 (vx (extent bb_cloud_mod) + 0.04)
                    (vy (extent bb_cloud_mod) + 0.04)
                    (vz (obb_center bb_cloud) + vz (extent bb_cloud_mod) / 2) in
        let bb_cloud_mod := mkOBB (obb_center bb_cloud_mod) new_extent in
        bb_cloud_mod :: table_boxes rest
  end.

Definition get_table_collision_object : list OrientedBoundingBox :=
  match table_plane_extractor env with
  | Some boxes => table_boxes boxes
  | None => []
  end.

(** The first loop of [add_table_collision_object]. *)
Fixpoint table_objects (counter : nat) (coll_objects : list OrientedBoundingBox)
  : list CollisionObject :=
  match coll_objects with
  | [] => []
  | obj :: rest =>
      let pose :=
        mkPose (mkVector3 (vx (obb_center obj)) (vy (obb_center obj))
                          (vz (obb_center obj) - 0.1))
               (mkQuaternion 0.0 0.0 0.0 1.0) in
      mkCollisionObject pose (vx (extent obj)) (vy (extent obj)) (vz (extent obj))
                        ("collision_object" ++ str counter)%string "map" ADD
      :: table_objects (S counter) rest
  end.

(** A wall or floor slab: a default [Pose()] with position and
    [orientation.w] assigned. *)
Definition slab (slab_name : string) (px py pz ori_w sx sy sz : Q)
  : CollisionObject :=
  mkCollisionObject
    (mkPose (mkVector3 px py pz)
            (mkQuaternion (qx (orientation Pose_default))
                          (qy (orientation Pose_default))
                          (qz (orientation Pose_default)) ori_w))
    sx sy sz slab_name "map" ADD.

Definition enclosure : list CollisionObject :=
  let pos := fst (omni_base_pose env) in
  let ori := snd (omni_base_pose env) in
  [slab "floor" (vx pos) (vy pos) (-0.07) (qw ori) 15 15 0.1;
   slab "front_wall" (vx pos + 1.5) (vy pos) 0.05 (qw ori) 0.01 4 0.1;
   slab "behind_wall" (vx pos - 1.5) (vy pos) 0.05 (qw ori) 0.01 4 0.1;
   slab "left_wall" (vx pos) (vy pos + 2.0) 0.05 (qw ori) 4 0.01 0.1;
   slab "right_wall" (vx pos) (vy pos - 1.0) 0.05 (qw ori) 4 0.01 0.1].

Definition collisionObject_list (coll_objects : list OrientedBoundingBox)
  : list CollisionObject :=
  table_objects 1 coll_objects ++ enclosure.

Definition add_table_collision_object (coll_objects : list OrientedBoundingBox)
  : list Command :=
  [SendCollisionGoal (collisionObject_list coll_objects); Sleep 2].

(** How the candidate loop of [execute] is left. *)
Inductive LoopExit :=
| InvalidGoal                       (* the [return] after [set_aborted()] *)
| PlanFound (safety_distance : Q)   (* the [break] *)
| NoPlan.                           (* the list ran out *)

(** The in-place update of one candidate: the safety offset along the
    approach vector, then the stamp. *)
Definition offset_in_place (grasp_pose : PoseStamped) : PoseStamped :=
  let q := orientation (pose grasp_pose) in
  let approach_vector := qv_mult q (mkVector3 0 0 (-1)) in
  let safety_distance :=
    match param_safety_distance env with Some d => d | None => 0.08 end in
  let p := position (pose grasp_pose) in
  let p := mkVector3 (vx p + safety_distance * vx approach_vector) (vy p) (vz p) in
  let p := mkVector3 (vx p) (vy p + safety_distance * vy approach_vector) (vz p) in
  let p := mkVector3 (vx p) (vy p) (vz p + safety_distance * vz approach_vector) in
  let t := getLatestCommonTime env "/odom" (frame_id (header grasp_pose)) in
  mkPoseStamped (mkHeader t (frame_id (header grasp_pose)))
                (mkPose p (orientation (pose grasp_pose))).

(** The pose target planned for a candidate: [transformPose] returns a
    new message, the candidate itself keeps the offset pose. *)
Definition pose_target (grasp_pose : PoseStamped) : PoseStamped :=
  transformPose env "/odom" (offset_in_place grasp_pose).

(** [for grasp_pose in goal.grasp_poses: ...].  Returns the commands
    sent, the candidate list as the loop leaves it, and the exit. *)
Fixpoint grasp_loop (grasp_poses : list PoseStamped)
  : list Command * list PoseStamped * LoopExit :=
  match grasp_poses with
  | [] => ([], [], NoPlan)
  | grasp_pose :: rest =>
      if frame_id (header grasp_pose) =? "" then
        ([], grasp_pose :: rest, InvalidGoal)
      else
        let safety_distance :=
          match param_safety_distance env with Some d => d | None => 0.08 end in
        let stored := offset_in_place grasp_pose in
        let grasp_pose := transformPose env "/odom" stored in
        let cmds := [AddMarker grasp_pose; SetPoseTarget grasp_pose; MoveGroupPlan] in
        if (0 <? List.length (plan_points env grasp_pose))%nat then
          (cmds, stored :: rest, PlanFound safety_distance)
        else
          let '(cmds', rest', exit) := grasp_loop rest in
          (cmds ++ cmds', stored :: rest', exit)
  end.

(** One run of the action callback. *)
Record Run := mkRun {
  commands : list Command;           (* sent to the collaborators *)
  grasp_poses_after : list PoseStamped;  (* [goal.grasp_poses] afterwards *)
  server : ServerCall                (* how the goal was terminated *)
}.

(** The grasp, the post-grasp sequence and the check of the gripper. *)
Definition grasp_and_check (safety_distance : Q) : list Command * ServerCall :=
  let '(pose_vec, pose_quat) := get_end_effector_pose env "base_link" in
  let new_pose_vec := mkVector3 (vx pose_vec) (vy pose_vec) (vz pose_vec + 0.05) in
  let moves :=
    [MoveGroupGo; Sleep 0.5;
     MoveEndEffectorByLine (mkVector3 0 0 1) safety_distance;
     GripperApplyForce 0.30;
     MoveEndEffectorPose (new_pose_vec, pose_quat);
     MoveEndEffectorByLine (mkVector3 0 0 1) (- safety_distance);
     OmniBaseGoRel (-0.2) 0.0 0.0 10;
     MoveToNeutral;
     GripperApplyForce 0.50] in
  if Qlt_bool (-0.004) (get_distance env) then
    (moves, set_succeeded (Some (mkResult true)))
  else
    (moves ++ [GripperCommand 1.0], set_aborted None).

(** What [execute] sends before it looks at the candidates. *)
Definition setup : list Command :=
  create_collision_environment
  ++ add_table_collision_object get_table_collision_object
  ++ [ClearOctomap].

Definition execute (grasp_poses : list PoseStamped) : Run :=
  let '(cmds, after, exit) := grasp_loop grasp_poses in
  match exit with
  | InvalidGoal => mkRun (setup ++ cmds) after (set_aborted None)
  | NoPlan =>
      mkRun (setup ++ cmds ++ [MoveGroupStop; ClearPoseTargets]) after
            (set_aborted (Some (mkResult false)))
  | PlanFound safety_distance =>
      let '(moves, call) := grasp_and_check safety_distance in
      mkRun (setup ++ cmds ++ moves) after call
  end.

(** *** Vocabulary for the properties of [execute] *)

(** The candidate carries a frame tag. *)
Definition has_frame (grasp_pose : PoseStamped) : bool :=
  negb (frame_id (header grasp_pose) =? "").

(** The plan requested for the candidate has at least one waypoint. *)
Definition feasible (grasp_pose : PoseStamped) : bool :=
  (0 <? List.length (plan_points env (pose_target grasp_pose)))%nat.

(** Candidates the loop passes over: tagged with a frame, and without a plan. *)
Definition passed_over (grasp_pose : PoseStamped) : Prop :=
  has_frame grasp_pose = true /\ feasible grasp_pose = false.

(** What one pass of the loop sends for a candidate with a frame tag. *)
Definition planning_commands (grasp_pose : PoseStamped) : list Command :=
  [AddMarker (pose_target grasp_pose); SetPoseTarget (pose_target grasp_pose);
   MoveGroupPlan].

(** The pose targets set by a command sequence, in order. *)
Fixpoint pose_targets (cmds : list Command) : list PoseStamped :=
  match cmds with
  | [] => []
  | SetPoseTarget t :: rest => t :: pose_targets rest
  | _ :: rest => pose_targets rest
  end.

(** The number of plans requested by a command sequence. *)
Fixpoint plans_requested (cmds : list Command) : nat :=
  match cmds with
  | [] => 0
  | MoveGroupPlan :: rest => S (plans_requested rest)
  | _ :: rest => plans_requested rest
  end.

Definition default_safety_distance : Q :=
  match param_safety_distance env with Some d => d | None => 0.08 end.

(** The number of candidates the loop rewrites in place.  The loop rewrites a
    candidate when it reaches it and finds a frame tag on it: it goes on
    while the candidates have a frame tag and no plan, rewrites the first
    candidate with a plan and stops there, and stops before the first
    candidate without a frame tag. *)
Fixpoint examined (grasp_poses : list PoseStamped) : nat :=
  match grasp_poses with
  | [] => 0
  | grasp_pose :: rest =>
      if has_frame grasp_pose then
        if feasible grasp_pose then 1 else S (examined rest)
      else 0
  end.

End Server.

End ExecuteGraspServer.

(** ** src/collision_environment.py *)

Module CollisionEnvironment.

(** grasping_pipeline.msg CollisionObject.  [method] is an integer field;
    the message's constants are parameters of [Server] below. *)
Record CollisionObject := mkCollisionObject {
  name : string;
  frame : string;
  method : N;
  co_pose : Pose;
  co_size : Vector3
}.

(** The planning scene, rospy's shutdown flag and the rest of the system,
    seen from the server: an abstract state with the calls the server makes.
    The scene applies updates asynchronously, so nothing is assumed about
    what a call does to what a later query returns. *)
Class SceneEnv (A : Type) := {
  (** what happens around the server while it sleeps for a duration *)
  elapse : Q -> A -> A;
  (** [rospy.is_shutdown()] *)
  is_shutdown : A -> bool;
  (** [scene.add_box(name, pose, size)] *)
  scene_add_box : string -> PoseStamped -> Vector3 -> A -> A;
  (** [scene.remove_world_object(name)] *)
  scene_remove_world_object : string -> A -> A;
  (** [scene.attach_box(link, name, pose, size, touch_links)] *)
  scene_attach_box : string -> string -> PoseStamped -> Vector3 -> list string -> A -> A;
  (** [scene.remove_attached_object(link, name)] *)
  scene_remove_attached_object : string -> string -> A -> A;
  (** the keys of [scene.get_attached_objects(names)] *)
  scene_get_attached_objects : list string -> A -> list string;
  (** [scene.get_known_object_names()] *)
  scene_get_known_object_names : A -> list string;
  (** [robotCommander.get_link_names(group)] *)
  get_link_names : string -> A -> list string;
  (** the [/clear_octomap] service *)
  clear_octomap : A -> A
}.

(** The server's world: rospy's clock and the environment.  Only
    [rospy.sleep] takes time. *)
Record World (A : Type) := mkWorld { now : Q; scene : A }.
Arguments mkWorld {A} _ _.
Arguments now {A} _.
Arguments scene {A} _.

Record CreateCollisionEnvironmentResult := mkResult { isDone : bool }.

(** Calls on the action server that terminate the goal. *)
Inductive ServerCall :=
| set_succeeded (result : CreateCollisionEnvironmentResult)
| set_aborted (result : CreateCollisionEnvironmentResult).

Section Server.

Context {A : Type} {E : SceneEnv A}.

(** [CollisionObject.METHOD_*], declared in the message file. *)
Variables METHOD_ADD_BOX METHOD_REMOVE_BOX METHOD_ATTACH_BOX METHOD_DETACH_BOX : N.

(** [self.eef_link = move_group.get_end_effector_link()] *)
Variable eef_link : string.

Definition get_time (w : World A) : Q := now w.

Definition sleep (d : Q) (w : World A) : World A :=
  mkWorld (now w + d) (elapse d (scene w)).

Definition on_scene (f : A -> A) (w : World A) : World A :=
  mkWorld (now w) (f (scene w)).

(** Does the scene show the box in the expected state?  The body of the
    polling loop up to its [return True]. *)
Definition in_expected_state (box_is_known box_is_attached : bool)
           (box_name : string) (w : World A) : bool :=
  let attached_objects := scene_get_attached_objects [box_name] (scene w) in
  let is_attached := (0 <? List.length attached_objects)%nat in
  let is_known :=
    existsb (String.eqb box_name) (scene_get_known_object_names (scene w)) in
  Bool.eqb box_is_attached is_attached && Bool.eqb box_is_known is_known.

(** The [while] loop of [wait_for_state_update]; [fuel] bounds the number
    of times its condition is evaluated, [None] means the bound was hit. *)
Fixpoint wait_loop (fuel : nat) (box_is_known box_is_attached : bool)
         (timeout : Q) (box_name : string) (start seconds : Q) (w : World A)
  : option (bool * World A) :=
  match fuel with
  | O => None
  | S fuel' =>
      if Qlt_bool (seconds - start) timeout && negb (is_shutdown (scene w)) then
        if in_expected_state box_is_known box_is_attached box_name w then
          Some (true, w)
        else
          let w := sleep 0.1 w in
          let seconds := get_time w in
          wait_loop fuel' box_is_known box_is_attached timeout box_name
                    start seconds w
      else Some (false, w)
  end.

(** The world at the [k]-th evaluation of the loop condition, when the
    loop has not returned before. *)
Definition at_poll (k : nat) (w : World A) : World A :=
  Nat.iter k (sleep 0.1) w.

(** Enough fuel for any wait with this timeout: the condition is
    evaluated at most once per 0.1 of the timeout, and once more. *)
Definition poll_budget (timeout : Q) : nat :=
  S (Z.to_nat (Qceiling (timeout / 0.1))).

Definition wait_for_state_update (box_is_known box_is_attached : bool)
           (timeout : Q) (box_name : string) (w : World A) : bool * World A :=
  let start := get_time w in
  let seconds := get_time w in
  match wait_loop (poll_budget timeout) box_is_known box_is_attached
                  timeout box_name start seconds w with
  | Some r => r
  | None => (false, w)
  end.

Definition remove_box (box_name : string) (timeout : Q) (w : World A) :=
  let w := on_scene (scene_remove_world_object box_name) w in
  wait_for_state_update false false timeout box_name w.

Definition add_box (box_name : string) (pose : Pose) (frame_ : string)
           (size_ : Vector3) (timeout : Q) (w : World A) :=
  let box_pose := mkPoseStamped (mkHeader 0 frame_) pose in
  let w := on_scene (scene_add_box box_name box_pose size_) w in
  wait_for_state_update true false timeout box_name w.

Definition attach_box (box_name grasping_group : string) (pose : Pose)
           (frame_ : string) (size_ : Vector3) (timeout : Q) (w : World A) :=
  let poseStamped := mkPoseStamped (mkHeader 0 eef_link) pose in
  let touch_links := get_link_names grasping_group (scene w) in
  let w := on_scene (scene_attach_box eef_link box_name poseStamped size_
                                      touch_links) w in
  wait_for_state_update false true timeout box_name w.

Definition detach_box (box_name : string) (timeout : Q) (w : World A) :=
  let w := on_scene (scene_remove_attached_object eef_link box_name) w in
  wait_for_state_update true false timeout box_name w.

(** One collision object of the batch: the mutation and its confirmation.
    [None] when [method] is none of the four constants, in which case
    nothing is sent and nothing is waited for. *)
Definition mutate (collisionObject : CollisionObject) (w : World A)
  : option bool * World A :=
  let size_ := co_size collisionObject in
  let frame_ :=
    if frame collisionObject =? "eef_link" then eef_link
    else frame collisionObject in
  let some '(ok, w) := (Some ok, w) in
  if (method collisionObject =? METHOD_ADD_BOX)%N then
    some (add_box (name collisionObject) (co_pose collisionObject) frame_ size_ 4 w)
  else if (method collisionObject =? METHOD_REMOVE_BOX)%N then
    some (remove_box (name collisionObject) 4 w)
  else if (method collisionObject =? METHOD_ATTACH_BOX)%N then
    let group := "gripper" in
    some (attach_box (name collisionObject) group (co_pose collisionObject)
                     frame_ size_ 4 w)
  else if (method collisionObject =? METHOD_DETACH_BOX)%N then
    some (detach_box (name collisionObject) 4 w)
  else (None, w).

(** The body of the [for] loop: [isDone] is cleared when the mutation
    returned [False], and never set again. *)
Definition step (st : bool * World A) (collisionObject : CollisionObject)
  : bool * World A :=
  let '(isDone, w) := st in
  match mutate collisionObject w with
  | (Some false, w) => (false, w)
  | (_, w) => (isDone, w)
  end.

Definition execute (collision_objects : list CollisionObject) (w : World A)
  : ServerCall * World A :=
  let w := on_scene clear_octomap w in
  let isDone := true in
  let '(isDone, w) := fold_left step collision_objects (isDone, w) in
  let result := mkResult isDone in
  (set_succeeded result, w).

(** The mutations of a batch run one after the other, each in the world its
    predecessors left: the outcome of every one, and the final world. *)
Fixpoint run_batch (collision_objects : list CollisionObject) (w : World A)
  : list (option bool) * World A :=
  match collision_objects with
  | [] => ([], w)
  | collisionObject :: rest =>
      let '(r, w) := mutate collisionObject w in
      let '(rs, w) := run_batch rest w in
      (r :: rs, w)
  end.

(** A mutation counts against the batch only when its wait returned [False]. *)
Definition confirmed (r : option bool) : bool :=
  match r with Some false => false | _ => true end.

End Server.

End CollisionEnvironment.

(** *** The [CreateCollisionObjects] state *)

Module CreateCollisionObjects.

Import CollisionEnvironment.

(** vision_msgs/BoundingBox3DArray *)
Record BoundingBox3DArray := mkBoxes {
  bbs_header : Header;
  boxes : list BoundingBox3D
}.

Inductive Outcome := succeeded | aborted.

Section State.

(** [CollisionObject.METHOD_ADD_BOX] *)
Variable METHOD_ADD_BOX : N.

(** The body of the loop of [get_table_plane_bbs]: the box of the
    response is rewritten in place. *)
Definition rewrite_box (ros_bb : BoundingBox3D) : BoundingBox3D :=
  let center_ := position (center ros_bb) in
  let old_center_z := vz center_ in
  let size_ := size ros_bb in
  let center_ := mkVector3 (vx center_) (vy center_) ((vz center_ + vz size_ / 2) / 2) in
  let size_ := mkVector3 (vx size_ + 0.04) (vy size_) (vz size_) in
  let size_ := mkVector3 (vx size_) (vy size_ + 0.04) (vz size_) in
  let size_ := mkVector3 (vx size_) (vy size_) (old_center_z + vz size_ / 2) in
  mkBoundingBox3D (mkPose center_ (orientation (center ros_bb))) size_.

(** [get_table_plane_bbs], given the extractor's response. *)
Definition get_table_plane_bbs (plane_bounding_boxes : BoundingBox3DArray)
  : BoundingBox3DArray :=
  mkBoxes (bbs_header plane_bounding_boxes)
          (map rewrite_box (boxes plane_bounding_boxes)).

Definition create_collision_object (name_ frame_ : string) (method_ : N)
           (pose : Pose) (size_ : Vector3) : CollisionObject :=
  mkCollisionObject name_ frame_ method_ pose size_.

Definition create_collision_object_helper (name_ frame_ : string) (method_ : N)
           (translation : Q * Q * Q) (orientation_w : Q) (size_ : Q * Q * Q)
  : CollisionObject :=
  let '(t0, t1, t2) := translation in
  let '(s0, s1, s2) := size_ in
  let pose :=
    mkPose (mkVector3 t0 t1 t2)
           (mkQuaternion (qx (orientation Pose_default))
                         (qy (orientation Pose_default))
                         (qz (orientation Pose_default)) orientation_w) in
  create_collision_object name_ frame_ method_ pose (mkVector3 s0 s1 s2).

(** The loop of [execute] over the table boxes. *)
Fixpoint table_planes (frame_ : string) (idx : nat) (bbs : list BoundingBox3D)
  : list CollisionObject :=
  match bbs with
  | [] => []
  | table_bb :: rest =>
      let name_ := ("Table_plane_" ++ str idx)%string in
      let idx := (idx + 1)%nat in
      let size_ := size table_bb in
      let size_ := mkVector3 (vx size_) (vy size_) (vz size_ - 0.1) in
      create_collision_object name_ frame_ METHOD_ADD_BOX (center table_bb) size_
      :: table_planes frame_ idx rest
  end.

(** The floor and the walls around the robot, from [omni_base.get_pose()]. *)
Definition enclosure (base : Vector3 * Quaternion) : list CollisionObject :=
  let pos := fst base in
  let ori := snd base in
  [create_collision_object_helper "floor" "map" METHOD_ADD_BOX
     (vx pos, vy pos, -0.06) (qw ori) (15, 15, 0.1);
   create_collision_object_helper "front_wall" "map" METHOD_ADD_BOX
     (vx pos + 2.0, vy pos, 0.05) (qw ori) (0.01, 4, 0.1);
   create_collision_object_helper "back_wall" "map" METHOD_ADD_BOX
     (vx pos - 1.5, vy pos, 0.05) (qw ori) (0.01, 4, 0.1);
   create_collision_object_helper "left_wall" "map" METHOD_ADD_BOX
     (vx pos, vy pos + 2.0, 0.05) (qw ori) (4, 0.01, 0.1);
   create_collision_object_helper "right_wall" "map" METHOD_ADD_BOX
     (vx pos, vy pos - 2.0, 0.05) (qw ori) (4, 0.01, 0.1)].

(** [execute]: the goal sent to the collision environment server and the
    outcome of the state.  The server's [isDone] is only printed. *)
Definition execute (response : BoundingBox3DArray) (base : Vector3 * Quaternion)
  : list CollisionObject * Outcome :=
  let table_bbs := get_table_plane_bbs response in
  let collision_objects :=
    table_planes (frame_id (bbs_header table_bbs)) 0 (boxes table_bbs) in
  (collision_objects ++ enclosure base, succeeded).

End State.

End CreateCollisionObjects.

(** ** Concrete collaborators

    A small simulated planning scene and a small simulated robot, used to run
    the servers on concrete inputs. *)

Module Sim.

Import CollisionEnvironment.

(** A planning scene that applies an [add_box] after a fixed lag, unless
    the box is one of those it never receives. *)
Record Scene := mkScene {
  known : list string;             (* free-standing boxes *)
  attached : list string;          (* boxes attached to the gripper *)
  pending : list (Q * string);     (* adds on their way: time left, name *)
  lag : Q;                         (* how long an add takes to show *)
  lost : list string;              (* boxes whose add never arrives *)
  down : bool                      (* rospy has been shut down *)
}.

Definition mem (x : string) (l : list string) : bool := existsb (String.eqb x) l.

Definition without (x : string) (l : list string) : list string :=
  filter (fun y => negb (String.eqb x y)) l.

Definition sim_elapse (d : Q) (s : Scene) : Scene :=
  let aged := map (fun p => (fst p - d, snd p)) (pending s) in
  let due := filter (fun p => Qle_bool (fst p) 0) aged in
  let late := filter (fun p => negb (Qle_bool (fst p) 0)) aged in
  mkScene (known s ++ map snd due) (attached s) late (lag s) (lost s) (down s).

Definition sim_add_box (box : string) (s : Scene) : Scene :=
  if mem box (lost s) then s
  else if Qle_bool (lag s) 0 then
    mkScene (known s ++ [box]) (attached s) (pending s) (lag s) (lost s) (down s)
  else
    mkScene (known s) (attached s) (pending s ++ [(lag s, box)]) (lag s) (lost s)
            (down s).

Definition sim_remove_world_object (box : string) (s : Scene) : Scene :=
  mkScene (without box (known s)) (attached s) (pending s) (lag s) (lost s) (down s).

Definition sim_attach_box (box : string) (s : Scene) : Scene :=
  mkScene (without box (known s)) (without box (attached s) ++ [box]) (pending s)
          (lag s) (lost s) (down s).

Definition sim_remove_attached_object (box : string) (s : Scene) : Scene :=
  if mem box (attached s) then
    mkScene (without box (known s) ++ [box]) (without box (attached s)) (pending s)
            (lag s) (lost s) (down s)
  else s.

#[global] Instance sim_env : SceneEnv Scene := {|
  elapse := sim_elapse;
  is_shutdown := down;
  scene_add_box := fun box _ _ => sim_add_box box;
  scene_remove_world_object := sim_remove_world_object;
  scene_attach_box := fun _ box _ _ _ => sim_attach_box box;
  scene_remove_attached_object := fun _ box => sim_remove_attached_object box;
  scene_get_attached_objects := fun names s => filter (fun b => mem b names) (attached s);
  scene_get_known_object_names := known;
  get_link_names := fun _ _ => ["hand_l_finger_tip_frame"; "hand_r_finger_tip_frame"];
  clear_octomap := fun s => s
|}.

(** An empty scene at time 0. *)
Definition empty_world (lag_ : Q) (lost_ : list string) (down_ : bool) : World Scene :=
  mkWorld 0 (mkScene [] [] [] lag_ lost_ down_).

(** The message constants as [CollisionMethod] of the grasp server numbers
    them. *)
Definition ADD_BOX : N := 0.
Definition REMOVE_BOX : N := 1.
Definition ATTACH_BOX : N := 2.
Definition DETACH_BOX : N := 3.

Definition sim_execute := execute ADD_BOX REMOVE_BOX ATTACH_BOX DETACH_BOX "hand_palm_link".

Definition sim_wait := @wait_for_state_update Scene sim_env.

Definition box (name_ : string) (method_ : N) : CollisionObject :=
  mkCollisionObject name_ "map" method_
    (mkPose (mkVector3 0 0 0) (mkQuaternion 0 0 0 1)) (mkVector3 0.1 0.1 0.1).

(** Six adds. *)
Definition six_boxes : list CollisionObject :=
  [box "b1" ADD_BOX; box "b2" ADD_BOX; box "b3" ADD_BOX;
   box "b4" ADD_BOX; box "b5" ADD_BOX; box "b6" ADD_BOX].

(** *** A robot for the grasp server *)

Import ExecuteGraspServer.

Definition identity_q : Quaternion := mkQuaternion 0 0 0 1.

Definition candidate (frame_ : string) (x y z : Q) : PoseStamped :=
  mkPoseStamped (mkHeader 0 frame_) (mkPose (mkVector3 x y z) identity_q).

Definition five_waypoints : list JointTrajectoryPoint :=
  [[0]; [0.1]; [0.2]; [0.3]; [0.4]].

(** The planner reaches a target iff it is at least 0.5 above the ground;
    every frame coincides with [/odom]; the gripper reads [aperture]. *)
Definition robot (aperture : Q) : Collaborators := {|
  param_safety_distance := None;
  getLatestCommonTime := fun _ _ => 7;
  transformPose := fun target p =>
    mkPoseStamped (mkHeader (stamp (header p)) target) (pose p);
  plan_points := fun p =>
    if Qle_bool 0.5 (vz (position (pose p))) then five_waypoints else [];
  get_end_effector_pose := fun _ => (mkVector3 0.4 0 0.6, identity_q);
  get_distance := aperture;
  omni_base_pose := (mkVector3 0 0 0, identity_q);
  table_plane_extractor := Some []
|}.

End Sim.

(** ** Vocabulary for the geometry of poses and boxes *)

Module Geometry.

(** The squared length of a vector. *)
Definition norm2 (v : Vector3) : Q := vx v * vx v + vy v * vy v + vz v * vz v.

(** Two vectors with equal coordinates, as rationals. *)
Definition Veq (a b : Vector3) : Prop :=
  vx a == vx b /\ vy a == vy b /\ vz a == vz b.

(** The difference of two vectors. *)
Definition vsub (a b : Vector3) : Vector3 :=
  mkVector3 (vx a - vx b) (vy a - vy b) (vz a - vz b).

(** The quaternion with every component negated. *)
Definition qneg (q : Quaternion) : Quaternion :=
  mkQuaternion (- qx q) (- qy q) (- qz q) (- qw q).

(** The squared norm [numpy.dot(q, q)] of a quaternion. *)
Definition qnorm2 (q : Quaternion) : Q :=
  qx q * qx q + qy q * qy q + qz q * qz q + qw q * qw q.

(** The heights of the top and bottom faces of a box with centre height [cz]
    and vertical size [sz]. *)
Definition top_face (cz sz : Q) : Q := cz + sz / 2.
Definition bottom_face (cz sz : Q) : Q := cz - sz / 2.

End Geometry.

(** ** scripts/no_map_statemachine.py *)

Module NoMapStatemachine.

Inductive States :=
| GRASP | OPEN | RETURN_TO_NEUTRAL | PRINT_GRASP_POSE | QUIT | SHOW_COMMANDS
| FIND_GRASP | EXECUTE_GRASP.

(** Mapping of states to characters. *)
Definition states_keys (s : States) : string :=
  match s with
  | GRASP => "g"
  | OPEN => "o"
  | RETURN_TO_NEUTRAL => "n"
  | PRINT_GRASP_POSE => "p"
  | QUIT => "q"
  | SHOW_COMMANDS => "s"
  | FIND_GRASP => "f"
  | EXECUTE_GRASP => "e"
  end.

(** The userdata keys of [UserInput]; a key that was never written is
    [None], and reading it raises. *)
Record UserData := mkUserData {
  found_grasp_pose : option PoseStamped;
  grasp_height : option Q;
  find_grasppoint_method : option Z;
  objects_to_find : option (list string);
  safety_distance : option Q
}.

(** [str.lower()] on a byte string: the letters A to Z are mapped to a to z. *)
Definition lower_ascii (c : Ascii.ascii) : Ascii.ascii :=
  let n := Ascii.nat_of_ascii c in
  if ((65 <=? n) && (n <=? 90))%nat then Ascii.ascii_of_nat (n + 32) else c.

Fixpoint lower (s : string) : string :=
  match s with
  | EmptyString => EmptyString
  | String c rest => String (lower_ascii c) (lower rest)
  end.

(** The loop around [raw_input]: lines are read until one is a single
    character long.  Returns that line and the lines left, or [None] when the
    input ends first ([raw_input] raises [EOFError]). *)
Fixpoint raw_input_char (stdin : list string) : option (string * list string) :=
  match stdin with
  | [] => None
  | user_input :: rest =>
      if (String.length user_input =? 1)%nat then Some (user_input, rest)
      else raw_input_char rest
  end.

(** How [UserInput.execute] ends. *)
Inductive Exit :=
| Returned (outcome : string)   (* a [return] inside the loop *)
| LoopEnded                     (* [rospy.is_shutdown()]: falls out, returns [None] *)
| EndOfInput.                   (* [raw_input] raised [EOFError] *)

Section UserInput.

(** [rospy.is_shutdown()] at the n-th evaluation of the loop condition. *)
Variable is_shutdown : nat -> bool.

Definition set_method (m : Z) (userdata : UserData) : UserData :=
  mkUserData (found_grasp_pose userdata) (grasp_height userdata) (Some m)
             (objects_to_find userdata) (safety_distance userdata).

(** The outer [while] loop of [execute].  [polls] counts the evaluations of
    its condition; [fuel] bounds them, [None] means the bound was hit. *)
Fixpoint command_loop (fuel polls : nat) (userdata : UserData) (stdin : list string)
  : option (Exit * UserData * list string) :=
  match fuel with
  | O => None
  | S fuel' =>
      if is_shutdown polls then Some (LoopEnded, userdata, stdin)
      else
        match raw_input_char stdin with
        | None => Some (EndOfInput, userdata, [])
        | Some (user_input, stdin) =>
            let char_in := lower user_input in
            if char_in =? states_keys QUIT then
              Some (Returned "quitting", userdata, stdin)
            else if char_in =? states_keys GRASP then
              match raw_input_char stdin with
              | None => Some (EndOfInput, userdata, [])
              | Some (user_input, stdin) =>
                  let char_in := lower user_input in
                  if char_in =? "1" then
                    let userdata := set_method 1 userdata in
                    let userdata :=
                      mkUserData (found_grasp_pose userdata) (Some 0.05)
                                 (find_grasppoint_method userdata)
                                 (objects_to_find userdata) (safety_distance userdata) in
                    let userdata :=
                      mkUserData (found_grasp_pose userdata) (grasp_height userdata)
                                 (find_grasppoint_method userdata)
                                 (objects_to_find userdata) (Some 0.14) in
                    Some (Returned "grasping", userdata, stdin)
                  else
                    command_loop fuel' (S polls) (set_method 0 userdata) stdin
              end
            else if char_in =? states_keys OPEN then
              Some (Returned "opening", userdata, stdin)
            else if char_in =? states_keys RETURN_TO_NEUTRAL then
              Some (Returned "neutral", userdata, stdin)
            else if char_in =? states_keys PRINT_GRASP_POSE then
              command_loop fuel' (S polls) userdata stdin
            else if char_in =? states_keys SHOW_COMMANDS then
              command_loop fuel' (S polls) userdata stdin
            else if char_in =? states_keys FIND_GRASP then
              match raw_input_char stdin with
              | None => Some (EndOfInput, userdata, [])
              | Some (user_input, stdin) =>
                  let char_in := lower user_input in
                  if char_in =? "1" then
                    Some (Returned "find_grasp", set_method 1 userdata, stdin)
                  else
                    command_loop fuel' (S polls) (set_method 0 userdata) stdin
              end
            else if char_in =? states_keys EXECUTE_GRASP then
              match found_grasp_pose userdata with
              | Some _ => Some (Returned "execute_grasp", userdata, stdin)
              | None => command_loop fuel' (S polls) userdata stdin
              end
            else
              command_loop fuel' (S polls) userdata stdin
        end
  end.

(** [UserInput.execute]: every pass of the loop reads at least one line, so
    one more pass than there are lines is enough. *)
Definition execute (userdata : UserData) (stdin : list string)
  : Exit * UserData * list string :=
  let userdata :=
    mkUserData (found_grasp_pose userdata) (grasp_height userdata)
               (find_grasppoint_method userdata)
               (Some ["apple"; "sports ball"; "orange"; "bottle"])
               (safety_distance userdata) in
  match command_loop (S (List.length stdin)) 0 userdata stdin with
  | Some r => r
  | None => (LoopEnded, userdata, stdin)
  end.

(** The input as [execute] reads it: the lines of one character, in lower
    case. *)
Definition commands_of (stdin : list string) : list string :=
  map lower (filter (fun l => (String.length l =? 1)%nat) stdin).

End UserInput.

(** The outcomes [UserInput] registers. *)
Definition UserInput_outcomes : list string :=
  ["quitting"; "neutral"; "grasping"; "opening"; "find_grasp"; "execute_grasp"].

(** *** The state machine of [main] *)

(** The states in the order they are added, each with its transitions. *)
Definition states : list (string * list (string * string)) :=
  [("USER_INPUT",
    [("quitting", "end"); ("neutral", "GO_TO_NEUTRAL");
     ("grasping", "FIND_GRASPPOINT"); ("opening", "OPENING");
     ("find_grasp", "ONLY_FIND_GRASPPOINT"); ("execute_grasp", "EXECUTE_GRASP")]);
   ("GO_TO_NEUTRAL", [("succeeded", "USER_INPUT")]);
   ("OPENING", [("succeeded", "USER_INPUT")]);
   ("FIND_GRASPPOINT",
    [("succeeded", "EXECUTE_GRASP"); ("preempted", "USER_INPUT");
     ("aborted", "USER_INPUT")]);
   ("ONLY_FIND_GRASPPOINT",
    [("succeeded", "USER_INPUT"); ("preempted", "USER_INPUT");
     ("aborted", "USER_INPUT")]);
   ("EXECUTE_GRASP",
    [("succeeded", "NEUTRAL_BEFORE_HANDOVER"); ("preempted", "USER_INPUT");
     ("aborted", "USER_INPUT")]);
   ("NEUTRAL_BEFORE_HANDOVER", [("succeeded", "HANDOVER")]);
   ("HANDOVER",
    [("succeeded", "GO_TO_NEUTRAL"); ("preempted", "USER_INPUT");
     ("aborted", "USER_INPUT")])].

(** The outcomes of the state machine itself. *)
Definition sm_outcomes : list string := ["end"].

(** A dictionary lookup. *)
Fixpoint lookup {V : Type} (key : string) (d : list (string * V)) : option V :=
  match d with
  | [] => None
  | (k, v) :: rest => if key =? k then Some v else lookup key rest
  end.

(** Where the machine goes when the state [label] returns [outcome]. *)
Definition transition (label outcome : string) : option string :=
  match lookup label states with
  | Some transitions => lookup outcome transitions
  | None => None
  end.

(** The targets the machine passes through from [label] as its states return
    the given outcomes one after the other; it stops at an outcome of the
    machine, and at an outcome without a transition. *)
Fixpoint run (label : string) (outcomes : list string) : list string :=
  match outcomes with
  | [] => []
  | outcome :: rest =>
      match transition label outcome with
      | None => []
      | Some target =>
          if existsb (String.eqb target) sm_outcomes then [target]
          else target :: run target rest
      end
  end.

(** Whatever the states return, the machine started in [label] is back at
    [USER_INPUT] or has ended after at most [n] transitions. *)
Fixpoint back_within (n : nat) (label : string) : bool :=
  match n with
  | O => false
  | S n' =>
      match lookup label states with
      | None => true
      | Some transitions =>
          forallb (fun t => (snd t =? "USER_INPUT")
                            || existsb (String.eqb (snd t)) sm_outcomes
                            || back_within n' (snd t))
                  transitions
      end
  end.

End NoMapStatemachine.

(** ** The batch as the specification words it

    Section 4.4 of the specification describes the batched operation by
    operation kind: what each kind asks of the scene and which post-condition
    confirms it.  The definitions below follow those words and are compared
    with [CollisionEnvironment.execute] in the properties. *)

Module BatchSpec.

Import CollisionEnvironment.

Inductive Operation := ADD | REMOVE | ATTACH | DETACH.

Record CollisionPrimitive := mkPrimitive {
  cp_name : string;
  cp_frame : string;
  cp_pose : Pose;
  cp_extents : Vector3;
  cp_operation : Operation
}.

(** The numbering of the operations in [CollisionMethod] of the grasp
    server. *)
Definition numbered (op : Operation) : N :=
  match op with ADD => 0 | REMOVE => 1 | ATTACH => 2 | DETACH => 3 end.

(** The post-condition of an operation: whether the primitive is to be in
    the known set, and whether in the attached set. *)
Definition postcondition (op : Operation) : bool * bool :=
  match op with
  | ADD => (true, false)
  | REMOVE => (false, false)
  | ATTACH => (false, true)
  | DETACH => (true, false)
  end.

Section Spec.

Context {A : Type} {E : SceneEnv A}.

(** The message constant of each operation. *)
Variable code : Operation -> N.

(** The end-effector link. *)
Variable eef_link : string.

(** The primitive as a message of the batch. *)
Definition encode (p : CollisionPrimitive) : CollisionObject :=
  mkCollisionObject (cp_name p) (cp_frame p) (code (cp_operation p)) (cp_pose p)
                    (cp_extents p).

(** What the scene is asked to do for a primitive: insert it at its pose in
    its named frame ([eef_link] naming the end-effector link), delete it by
    name, bind it to the end-effector link with the gripper's links as touch
    links, or release it from the end-effector link. *)
Definition request (p : CollisionPrimitive) (a : A) : A :=
  match cp_operation p with
  | ADD =>
      let frame_ := if cp_frame p =? "eef_link" then eef_link else cp_frame p in
      scene_add_box (cp_name p) (mkPoseStamped (mkHeader 0 frame_) (cp_pose p))
                    (cp_extents p) a
  | REMOVE => scene_remove_world_object (cp_name p) a
  | ATTACH =>
      scene_attach_box eef_link (cp_name p)
                       (mkPoseStamped (mkHeader 0 eef_link) (cp_pose p))
                       (cp_extents p) (get_link_names "gripper" a) a
  | DETACH => scene_remove_attached_object eef_link (cp_name p) a
  end.

(** One mutation: the request, then the poll for its post-condition with
    the timeout of 4.  The result is whether the post-condition was
    confirmed. *)
Definition apply_primitive (p : CollisionPrimitive) (w : World A) : bool * World A :=
  wait_for_state_update (fst (postcondition (cp_operation p)))
                        (snd (postcondition (cp_operation p))) 4 (cp_name p)
                        (on_scene (request p) w).

(** Every mutation of the batch, in order, whatever the earlier ones
    returned. *)
Fixpoint apply_all (ps : list CollisionPrimitive) (w : World A)
  : list bool * World A :=
  match ps with
  | [] => ([], w)
  | p :: rest =>
      let '(ok, w) := apply_primitive p w in
      let '(oks, w) := apply_all rest w in
      (ok :: oks, w)
  end.

End Spec.

(** Six adds, named as in [Sim.six_boxes]. *)
Definition six_adds : list CollisionPrimitive :=
  map (fun n => mkPrimitive n "map" (mkPose (mkVector3 0 0 0) (mkQuaternion 0 0 0 1))
                            (mkVector3 0.1 0.1 0.1) ADD)
      ["b1"; "b2"; "b3"; "b4"; "b5"; "b6"].

End BatchSpec.

(** * Properties *)

(** ** Comparisons *)

Lemma Qlt_bool_true (x y : Q) : Qlt_bool x y = true <-> x < y.
Proof.
  unfold Qlt_bool. rewrite negb_true_iff, <- not_true_iff_false, Qle_bool_iff.
  split; [apply Qnot_le_lt | apply Qlt_not_le].
Qed.

Lemma Qlt_bool_false (x y : Q) : Qlt_bool x y = false <-> y <= x.
Proof.
  unfold Qlt_bool. rewrite negb_false_iff. apply Qle_bool_iff.
Qed.

(** ** The confirmation wait *)

Section WaitFacts.

Import CollisionEnvironment.

Context {A : Type} {E : SceneEnv A}.

Variables (box_is_known box_is_attached : bool) (timeout : Q) (box_name : string).

Local Abbreviation loop fuel :=
  (wait_loop fuel box_is_known box_is_attached timeout box_name).

Lemma now_at_poll (k : nat) (w : World A) :
  now (at_poll k w) == now w + 0.1 * inject_Z (Z.of_nat k).
Proof.
  induction k as [|k IH].
  - simpl. ring.
  - change (now (at_poll (S k) w)) with (now (at_poll k w) + 0.1). rewrite IH.
    rewrite Nat2Z.inj_succ. unfold Z.succ. rewrite inject_Z_plus. ring.
Qed.

(** More fuel does not change an answer. *)
Lemma wait_loop_fuel_S (fuel : nat) (start seconds : Q) (w : World A) r :
  loop fuel start seconds w = Some r -> loop (S fuel) start seconds w = Some r.
Proof.
  revert seconds w.
  induction fuel as [|fuel IH]; intros seconds w H; [discriminate|].
  cbn [wait_loop] in H. cbn [wait_loop].
  destruct (Qlt_bool (seconds - start) timeout && negb (is_shutdown (scene w)));
    [|exact H].
  destruct (in_expected_state box_is_known box_is_attached box_name w); [exact H|].
  apply IH in H. exact H.
Qed.

Lemma wait_loop_fuel_le (fuel fuel' : nat) (start seconds : Q) (w : World A) r :
  (fuel <= fuel')%nat ->
  loop fuel start seconds w = Some r -> loop fuel' start seconds w = Some r.
Proof.
  induction 1 as [|m _ IH]; [trivial|].
  intros H. apply wait_loop_fuel_S, IH, H.
Qed.

(** The loop answers as soon as the fuel covers what is left of the
    timeout, one evaluation of the condition per 0.1. *)
Lemma wait_loop_answers (fuel : nat) (start : Q) (w : World A) :
  timeout - (now w - start) <= 0.1 * inject_Z (Z.of_nat fuel) ->
  exists r, loop (S fuel) start (now w) w = Some r.
Proof.
  revert w. induction fuel as [|fuel IH]; intros w Hleft.
  - cbn [wait_loop].
    assert (Hc : Qlt_bool (now w - start) timeout = false).
    { apply Qlt_bool_false. change (inject_Z (Z.of_nat 0)) with 0 in Hleft. lra. }
    rewrite Hc. simpl. eauto.
  - cbn [wait_loop].
    destruct (Qlt_bool (now w - start) timeout && negb (is_shutdown (scene w)));
      [|eauto].
    destruct (in_expected_state box_is_known box_is_attached box_name w); [eauto|].
    unfold get_time. apply IH. cbn [sleep now].
    rewrite Nat2Z.inj_succ in Hleft. unfold Z.succ in Hleft.
    rewrite inject_Z_plus in Hleft. change (inject_Z 1) with 1 in Hleft. lra.
Qed.

Lemma poll_budget_covers :
  timeout <= 0.1 * inject_Z (Z.of_nat (Z.to_nat (Qceiling (timeout / 0.1)))).
Proof.
  pose proof (Qle_ceiling (timeout / 0.1)) as Hc.
  assert (Hdiv : timeout / 0.1 == timeout * 10) by (field; discriminate).
  set (d := timeout / 0.1) in *. set (c := Qceiling d) in *.
  destruct (Z_lt_le_dec c 0) as [Hneg|Hpos].
  - replace (Z.to_nat c) with 0%nat by lia. change (inject_Z (Z.of_nat 0)) with 0.
    assert (inject_Z c < 0)
      by (change 0 with (inject_Z 0); rewrite <- Zlt_Qlt; exact Hneg).
    lra.
  - rewrite Z2Nat.id by exact Hpos. lra.
Qed.

(** [wait_for_state_update] is the loop run to its end: the budget it is
    given is never used up, and any larger one gives the same answer. *)
Lemma wait_for_state_update_loop (w : World A) :
  exists r,
    wait_for_state_update box_is_known box_is_attached timeout box_name w = r /\
    forall fuel, (poll_budget timeout <= fuel)%nat ->
                 loop fuel (now w) (now w) w = Some r.
Proof.
  unfold wait_for_state_update, get_time.
  destruct (wait_loop_answers (Z.to_nat (Qceiling (timeout / 0.1))) (now w) w)
    as [r Hr].
  { pose proof poll_budget_covers. lra. }
  exists r. fold (poll_budget timeout) in Hr.
  rewrite Hr. split; [reflexivity|].
  intros fuel Hle. eapply wait_loop_fuel_le; eauto.
Qed.

End WaitFacts.

Section TimeoutFacts.

Import CollisionEnvironment.

Context {A : Type} {E : SceneEnv A}.

Variables (box_is_known box_is_attached : bool) (timeout : Q) (box_name : string).

Variable w0 : World A.

(** The scene never shows the expected state, and rospy stays up. *)
Hypothesis never_expected :
  forall k, in_expected_state box_is_known box_is_attached box_name (at_poll k w0) = false.
Hypothesis never_shutdown :
  forall k, is_shutdown (scene (at_poll k w0)) = false.


End TimeoutFacts.


(** ** The batch *)

Section BatchFacts.

Import CollisionEnvironment.

Context {A : Type} {E : SceneEnv A}.

Variables METHOD_ADD_BOX METHOD_REMOVE_BOX METHOD_ATTACH_BOX METHOD_DETACH_BOX : N.
Variable eef_link : string.

Local Abbreviation mutate' :=
  (mutate METHOD_ADD_BOX METHOD_REMOVE_BOX METHOD_ATTACH_BOX METHOD_DETACH_BOX eef_link).
Local Abbreviation step' :=
  (step METHOD_ADD_BOX METHOD_REMOVE_BOX METHOD_ATTACH_BOX METHOD_DETACH_BOX eef_link).
Local Abbreviation run_batch' :=
  (run_batch METHOD_ADD_BOX METHOD_REMOVE_BOX METHOD_ATTACH_BOX METHOD_DETACH_BOX eef_link).
Local Abbreviation execute' :=
  (execute METHOD_ADD_BOX METHOD_REMOVE_BOX METHOD_ATTACH_BOX METHOD_DETACH_BOX eef_link).

Lemma step_mutate (isDone : bool) (w : World A) (o : CollisionObject) :
  step' (isDone, w) o = (isDone && confirmed (fst (mutate' o w)), snd (mutate' o w)).
Proof.
  unfold step. destruct (mutate' o w) as [[[|]|] w']; simpl;
    rewrite ?andb_true_r, ?andb_false_r; reflexivity.
Qed.

(** The loop of [execute] visits every object: its flag is the conjunction
    over all outcomes and its world is the one the last mutation left. *)
Lemma fold_step_run_batch (collision_objects : list CollisionObject)
      (isDone : bool) (w : World A) :
  fold_left step' collision_objects (isDone, w)
  = (isDone && forallb confirmed (fst (run_batch' collision_objects w)),
     snd (run_batch' collision_objects w)).
Proof.
  revert isDone w.
  induction collision_objects as [|o rest IH]; intros isDone w.
  - simpl. rewrite andb_true_r. reflexivity.
  - cbn [fold_left run_batch]. rewrite step_mutate, IH.
    destruct (mutate' o w) as [r w1]. cbn [fst snd].
    destruct (run_batch' rest w1) as [rs w2].
    simpl. rewrite andb_assoc. reflexivity.
Qed.

Lemma run_batch_length (collision_objects : list CollisionObject) (w : World A) :
  List.length (fst (run_batch' collision_objects w)) = List.length collision_objects.
Proof.
  revert w. induction collision_objects as [|o rest IH]; intros w; [reflexivity|].
  cbn [run_batch]. destruct (mutate' o w) as [r w1].
  specialize (IH w1). destruct (run_batch' rest w1) as [rs w2].
  simpl in *. congruence.
Qed.

Lemma execute_run_batch (collision_objects : list CollisionObject) (w : World A) :
  execute' collision_objects w
  = (let run := run_batch' collision_objects (on_scene clear_octomap w) in
     (set_succeeded (mkResult (forallb confirmed (fst run))), snd run)).
Proof.
  unfold execute. rewrite fold_step_run_batch. reflexivity.
Qed.

Lemma forallb_confirmed (rs : list (option bool)) :
  forallb confirmed rs = true <-> forall r, In r rs -> r <> Some false.
Proof.
  rewrite forallb_forall. split; intros H r Hin; specialize (H r Hin).
  - intros ->. discriminate.
  - destruct r as [[|]|]; try reflexivity. congruence.
Qed.

Lemma forallb_confirmed_false (rs : list (option bool)) :
  forallb confirmed rs = false <-> In (Some false) rs.
Proof.
  induction rs as [|r rs IH]; simpl.
  - split; [discriminate | tauto].
  - rewrite andb_false_iff, IH. destruct r as [[|]|]; simpl;
      split; intros [H|H]; auto; discriminate.
Qed.

End BatchFacts.

(** When [method] is one of the four constants, the mutation is sent and
    waited for. *)
Lemma mutate_known_method {A : Type} {E : CollisionEnvironment.SceneEnv A}
      (ADD REMOVE ATTACH DETACH : N) (eef_link : string)
      (o : CollisionEnvironment.CollisionObject) (w : CollisionEnvironment.World A) :
  In (CollisionEnvironment.method o) [ADD; REMOVE; ATTACH; DETACH] ->
  exists b, fst (CollisionEnvironment.mutate ADD REMOVE ATTACH DETACH eef_link o w)
            = Some b.
Proof.
  intros Hin. unfold CollisionEnvironment.mutate.
  repeat match goal with
         | |- context [N.eqb ?x ?y] => destruct (N.eqb_spec x y)
         | |- context [let '(_, _) := ?p in _] => destruct p
         end; simpl; eauto.
  simpl in Hin. intuition congruence.
Qed.

(** *** The batch against the specification *)

Section BatchAgainstSpec.

Import CollisionEnvironment.

Context {A : Type} {E : SceneEnv A}.

Variable code : BatchSpec.Operation -> N.
Variable eef_link : string.

Hypothesis code_injective : forall a b, code a = code b -> a = b.

Local Abbreviation mutate_ :=
  (mutate (code BatchSpec.ADD) (code BatchSpec.REMOVE) (code BatchSpec.ATTACH)
          (code BatchSpec.DETACH) eef_link).

Lemma code_eqb (a b : BatchSpec.Operation) :
  (code a =? code b)%N = match a, b with
                         | BatchSpec.ADD, BatchSpec.ADD
                         | BatchSpec.REMOVE, BatchSpec.REMOVE
                         | BatchSpec.ATTACH, BatchSpec.ATTACH
                         | BatchSpec.DETACH, BatchSpec.DETACH => true
                         | _, _ => false
                         end.
Proof.
  destruct (N.eqb_spec (code a) (code b)) as [Heq|Hne].
  - apply code_injective in Heq. subst b. destruct a; reflexivity.
  - destruct a, b; try reflexivity; exfalso; apply Hne; reflexivity.
Qed.

(** The loop body of [execute] on the message of a primitive sends the
    request of its operation and polls for its post-condition. *)
Lemma mutate_encode (p : BatchSpec.CollisionPrimitive) (w : World A) :
  mutate_ (BatchSpec.encode code p) w
  = (Some (fst (BatchSpec.apply_primitive eef_link p w)),
     snd (BatchSpec.apply_primitive eef_link p w)).
Proof.
  destruct p as [name_ frame_ pose_ extents_ op].
  unfold mutate, BatchSpec.encode, BatchSpec.apply_primitive, BatchSpec.request.
  cbn [method name frame co_pose co_size BatchSpec.cp_name BatchSpec.cp_frame
       BatchSpec.cp_pose BatchSpec.cp_extents BatchSpec.cp_operation].
  rewrite !code_eqb.
  destruct op; cbn [BatchSpec.postcondition fst snd];
    unfold add_box, remove_box, attach_box, detach_box, on_scene; cbv beta;
    match goal with
    | |- context [wait_for_state_update ?k ?a ?t ?n ?w'] =>
        destruct (wait_for_state_update k a t n w')
    end; reflexivity.
Qed.

Lemma run_batch_encode (ps : list BatchSpec.CollisionPrimitive) (w : World A) :
  run_batch (code BatchSpec.ADD) (code BatchSpec.REMOVE) (code BatchSpec.ATTACH)
            (code BatchSpec.DETACH) eef_link (map (BatchSpec.encode code) ps) w
  = (map Some (fst (BatchSpec.apply_all eef_link ps w)),
     snd (BatchSpec.apply_all eef_link ps w)).
Proof.
  revert w. induction ps as [|p ps IH]; intros w; [reflexivity|].
  cbn [map run_batch BatchSpec.apply_all]. rewrite mutate_encode.
  destruct (BatchSpec.apply_primitive eef_link p w) as [ok w1]. cbn [fst snd].
  rewrite IH. destruct (BatchSpec.apply_all eef_link ps w1) as [oks w2]. reflexivity.
Qed.

Lemma apply_all_length (ps : list BatchSpec.CollisionPrimitive) (w : World A) :
  List.length (fst (BatchSpec.apply_all eef_link ps w)) = List.length ps.
Proof.
  revert w. induction ps as [|p ps IH]; intros w; [reflexivity|].
  cbn [BatchSpec.apply_all]. destruct (BatchSpec.apply_primitive eef_link p w) as [ok w1].
  specialize (IH w1). destruct (BatchSpec.apply_all eef_link ps w1) as [oks w2].
  cbn [fst List.length] in *. congruence.
Qed.

Lemma forallb_confirmed_Some (oks : list bool) :
  forallb confirmed (map Some oks) = true <-> forall ok, In ok oks -> ok = true.
Proof.
  induction oks as [|ok oks IH]; cbn [map forallb].
  - split; [intros _ ok []|reflexivity].
  - rewrite andb_true_iff, IH. destruct ok; cbn [confirmed]; split.
    + intros [_ H] ok [<-|Hin]; auto.
    + intros H. split; [reflexivity|]. intros ok Hin. apply H. right. exact Hin.
    + intros [H _]. discriminate.
    + intros H. specialize (H false (or_introl eq_refl)). discriminate.
Qed.

End BatchAgainstSpec.

(** C5.  For a batch of primitives of the four operations, sent as messages
    with four distinct method constants, [execute] does what the
    specification says of every one of them, in order and whatever the
    earlier ones returned: it clears the octomap, then for each primitive
    sends the request of its operation to the scene and polls for its
    post-condition; the world it leaves is the one the last poll left, and
    the [isDone] it returns is true iff every post-condition was confirmed. *)
Theorem batch_isDone_iff_every_mutation_confirmed
  {A : Type} {E : CollisionEnvironment.SceneEnv A}
  (code : BatchSpec.Operation -> N) (eef_link : string)
  (ps : list BatchSpec.CollisionPrimitive)
  (w : CollisionEnvironment.World A) :
  (forall a b, code a = code b -> a = b) ->
  let run := BatchSpec.apply_all eef_link ps
               (CollisionEnvironment.on_scene CollisionEnvironment.clear_octomap w) in
  let done := CollisionEnvironment.execute
                (code BatchSpec.ADD) (code BatchSpec.REMOVE) (code BatchSpec.ATTACH)
                (code BatchSpec.DETACH) eef_link (map (BatchSpec.encode code) ps) w in
  List.length (fst run) = List.length ps /\
  snd done = snd run /\
  exists isDone,
    fst done = CollisionEnvironment.set_succeeded (CollisionEnvironment.mkResult isDone) /\
    (isDone = true <-> forall ok, In ok (fst run) -> ok = true).
Proof.
  intros Hinj run done. subst done.
  rewrite execute_run_batch, (run_batch_encode code eef_link Hinj). fold run.
  cbn [fst snd].
  split; [apply apply_all_length|]. split; [reflexivity|].
  eexists. split; [reflexivity|]. apply forallb_confirmed_Some.
Qed.

(** The scenario of six adds of which the second never shows, on the
    simulated scene. *)
Lemma batch_isDone_iff_every_mutation_confirmed_witness :
  let w := Sim.empty_world 0.25 ["b2"] false in
  let run := BatchSpec.apply_all "hand_palm_link" BatchSpec.six_adds
               (CollisionEnvironment.on_scene CollisionEnvironment.clear_octomap w) in
  let done := Sim.sim_execute (map (BatchSpec.encode BatchSpec.numbered)
                                   BatchSpec.six_adds) w in
  (forall a b, BatchSpec.numbered a = BatchSpec.numbered b -> a = b) /\
  fst run = [true; false; true; true; true; true] /\
  Sim.known (CollisionEnvironment.scene (snd run)) = ["b1"; "b3"; "b4"; "b5"; "b6"] /\
  snd done = snd run /\
  exists isDone,
    fst done = CollisionEnvironment.set_succeeded (CollisionEnvironment.mkResult isDone) /\
    (isDone = true <-> forall ok, In ok (fst run) -> ok = true).
Proof.
  intros w run done.
  assert (Hinj : forall a b, BatchSpec.numbered a = BatchSpec.numbered b -> a = b).
  { intros [] []; intros H; try reflexivity; discriminate H. }
  split; [exact Hinj|]. split; [reflexivity|]. split; [reflexivity|].
  exact (proj2 (batch_isDone_iff_every_mutation_confirmed
                  BatchSpec.numbered "hand_palm_link" BatchSpec.six_adds w Hinj)).
Defined.

(** C10.  [execute] always ends in [set_succeeded], never in [set_aborted];
    a failed mutation shows only as [isDone = False] in the result. *)
Theorem batch_action_always_succeeds
  {A : Type} {E : CollisionEnvironment.SceneEnv A}
  (ADD REMOVE ATTACH DETACH : N) (eef_link : string)
  (collision_objects : list CollisionEnvironment.CollisionObject)
  (w : CollisionEnvironment.World A) :
  let run := CollisionEnvironment.run_batch ADD REMOVE ATTACH DETACH eef_link
               collision_objects
               (CollisionEnvironment.on_scene CollisionEnvironment.clear_octomap w) in
  let call := fst (CollisionEnvironment.execute ADD REMOVE ATTACH DETACH eef_link
                     collision_objects w) in
  (forall result, call <> CollisionEnvironment.set_aborted result) /\
  exists isDone,
    call = CollisionEnvironment.set_succeeded (CollisionEnvironment.mkResult isDone) /\
    (isDone = false <-> In (Some false) (fst run)).
Proof.
  intros run call. subst call. rewrite execute_run_batch. fold run. cbn [fst].
  split; [discriminate|].
  eexists. split; [reflexivity|].
  apply forallb_confirmed_false.
Qed.

(** ** The simulated scene *)

(** Nothing changes in a simulated scene with no add on its way. *)
Lemma sim_idle (k : nat) (lag_ : Q) (lost_ : list string) (down_ : bool) :
  CollisionEnvironment.scene
    (CollisionEnvironment.at_poll k (Sim.empty_world lag_ lost_ down_))
  = CollisionEnvironment.scene (Sim.empty_world lag_ lost_ down_).
Proof.
  induction k as [|k IH]; [reflexivity|].
  change (CollisionEnvironment.scene
            (CollisionEnvironment.at_poll (S k) (Sim.empty_world lag_ lost_ down_)))
    with (Sim.sim_elapse 0.1
            (CollisionEnvironment.scene
               (CollisionEnvironment.at_poll k (Sim.empty_world lag_ lost_ down_)))).
  rewrite IH. reflexivity.
Qed.

(** An add that the scene applies after 0.25 is confirmed at the third poll
    after the first, at time 0.3. *)
Example add_confirmed_after_lag :
  let r := CollisionEnvironment.add_box "b1" Pose_default "map" (mkVector3 1 1 1) 4
             (Sim.empty_world 0.25 [] false) in
  fst r = true /\ CollisionEnvironment.now (snd r) == 0.3 /\
  Sim.known (CollisionEnvironment.scene (snd r)) = ["b1"].
Proof. vm_compute. repeat split; reflexivity. Qed.

(** Attaching a known box and detaching it again are both confirmed. *)
Example attach_then_detach :
  let w := Sim.empty_world 0 [] false in
  let '(_, w) := CollisionEnvironment.add_box "b1" Pose_default "map" (mkVector3 1 1 1) 4 w in
  let '(a, w) := CollisionEnvironment.attach_box "hand_palm_link" "b1" "gripper"
                   Pose_default "map" (mkVector3 1 1 1) 4 w in
  let attached_then := Sim.attached (CollisionEnvironment.scene w) in
  let '(d, w) := CollisionEnvironment.detach_box "hand_palm_link" "b1" 4 w in
  (a, d, attached_then) = (true, true, ["b1"]) /\
  Sim.known (CollisionEnvironment.scene w) = ["b1"] /\
  Sim.attached (CollisionEnvironment.scene w) = [].
Proof. vm_compute. repeat split; reflexivity. Qed.

(** The scenario of six adds of which the second never shows: the batch is
    not done, and the four boxes after the failed one are in the scene. *)
Example six_adds_one_lost :
  let r := Sim.sim_execute Sim.six_boxes (Sim.empty_world 0.25 ["b2"] false) in
  fst r = CollisionEnvironment.set_succeeded (CollisionEnvironment.mkResult false) /\
  Sim.known (CollisionEnvironment.scene (snd r)) = ["b1"; "b3"; "b4"; "b5"; "b6"] /\
  fst (CollisionEnvironment.run_batch Sim.ADD_BOX Sim.REMOVE_BOX Sim.ATTACH_BOX
         Sim.DETACH_BOX "hand_palm_link" Sim.six_boxes
         (Sim.empty_world 0.25 ["b2"] false))
  = [Some true; Some false; Some true; Some true; Some true; Some true].
Proof. vm_compute. repeat split; reflexivity. Qed.


(** Under shutdown: the scene never shows the box, the
    wait returns [False], and no time has passed, which is earlier than the
    timeout of 4. *)
Lemma wait_on_shutdown :
  let w := Sim.empty_world 0.25 ["b2"] true in
  let r := Sim.sim_wait true false 4 "b2" w in
  (forall k, CollisionEnvironment.in_expected_state true false "b2"
               (CollisionEnvironment.at_poll k w) = false) /\
  fst r = false /\
  ~ (4 <= CollisionEnvironment.now (snd r) - CollisionEnvironment.now w).
Proof.
  intros w r. split; [|split].
  - intros k. unfold CollisionEnvironment.in_expected_state, w.
    rewrite sim_idle. reflexivity.
  - reflexivity.
  - vm_compute. intros H. apply H. reflexivity.
Qed.


(** ** The candidate loop of the grasp server *)

Section GraspLoopFacts.

Import ExecuteGraspServer.

Variable env : Collaborators.

Lemma grasp_loop_cons_passed (c : PoseStamped) (rest : list PoseStamped) :
  passed_over env c ->
  grasp_loop env (c :: rest)
  = (let '(cmds, after, exit) := grasp_loop env rest in
     (planning_commands env c ++ cmds, offset_in_place env c :: after, exit)).
Proof.
  intros [Hf Hp]. unfold has_frame in Hf. apply negb_true_iff in Hf.
  unfold feasible, pose_target in Hp.
  cbn [grasp_loop]. rewrite Hf, Hp.
  destruct (grasp_loop env rest) as [[cmds after] exit]. reflexivity.
Qed.

(** The loop stops at the first candidate with a plan. *)
Lemma grasp_loop_found (pre : list PoseStamped) (c : PoseStamped)
      (post : list PoseStamped) :
  Forall (passed_over env) pre -> has_frame c = true -> feasible env c = true ->
  grasp_loop env (pre ++ c :: post)
  = (flat_map (planning_commands env) (pre ++ [c]),
     map (offset_in_place env) pre ++ offset_in_place env c :: post,
     PlanFound (default_safety_distance env)).
Proof.
  intros Hpre Hf Hp. induction Hpre as [|p pre Hp0 _ IH].
  - unfold has_frame in Hf. apply negb_true_iff in Hf.
    unfold feasible, pose_target in Hp.
    cbn [app grasp_loop]. rewrite Hf, Hp. reflexivity.
  - cbn [app]. rewrite grasp_loop_cons_passed, IH by exact Hp0. reflexivity.
Qed.

(** The loop returns at the first candidate without a frame tag. *)
Lemma grasp_loop_invalid (pre : list PoseStamped) (c : PoseStamped)
      (post : list PoseStamped) :
  Forall (passed_over env) pre -> has_frame c = false ->
  grasp_loop env (pre ++ c :: post)
  = (flat_map (planning_commands env) pre,
     map (offset_in_place env) pre ++ c :: post,
     InvalidGoal).
Proof.
  intros Hpre Hf. induction Hpre as [|p pre Hp0 _ IH].
  - unfold has_frame in Hf. apply negb_false_iff in Hf.
    cbn [app grasp_loop]. rewrite Hf. reflexivity.
  - cbn [app]. rewrite grasp_loop_cons_passed, IH by exact Hp0. reflexivity.
Qed.

(** The loop runs to the end of a list of candidates it passes over. *)
Lemma grasp_loop_exhausted (l : list PoseStamped) :
  Forall (passed_over env) l ->
  grasp_loop env l
  = (flat_map (planning_commands env) l, map (offset_in_place env) l, NoPlan).
Proof.
  induction 1 as [|p l Hp0 _ IH]; [reflexivity|].
  rewrite grasp_loop_cons_passed, IH by exact Hp0. reflexivity.
Qed.

(** Every candidate list splits into the candidates passed over and, unless
    the list ran out, the candidate at which the loop ended. *)
Lemma candidates_split (l : list PoseStamped) :
  exists pre rest,
    l = pre ++ rest /\ Forall (passed_over env) pre /\
    match rest with
    | [] => True
    | c :: _ => has_frame c = false \/ (has_frame c = true /\ feasible env c = true)
    end.
Proof.
  induction l as [|c l (pre & rest & -> & Hpre & Hrest)].
  - exists [], []. repeat split. constructor.
  - destruct (has_frame c) eqn:Hf.
    + destruct (feasible env c) eqn:Hp.
      * exists [], (c :: pre ++ rest). repeat split; [constructor | auto].
      * exists (c :: pre), rest. repeat split; [|exact Hrest].
        constructor; [split; assumption | exact Hpre].
    + exists [], (c :: pre ++ rest). repeat split; [constructor | auto].
Qed.

Lemma planning_commands_no_motion (l : list PoseStamped) :
  forallb (fun c => negb (is_motion_command c)) (flat_map (planning_commands env) l)
  = true.
Proof.
  induction l as [|p l IH]; [reflexivity|]. simpl. exact IH.
Qed.

Lemma pose_targets_planning (l : list PoseStamped) (tail : list Command) :
  pose_targets (flat_map (planning_commands env) l ++ tail)
  = map (pose_target env) l ++ pose_targets tail.
Proof.
  induction l as [|p l IH]; [reflexivity|]. simpl. rewrite IH. reflexivity.
Qed.

Lemma plans_requested_planning (l : list PoseStamped) (tail : list Command) :
  plans_requested (flat_map (planning_commands env) l ++ tail)
  = (List.length l + plans_requested tail)%nat.
Proof.
  induction l as [|p l IH]; [reflexivity|]. simpl. rewrite IH. reflexivity.
Qed.

End GraspLoopFacts.

(** ** The grasp stage *)

Section ExecuteFacts.

Import ExecuteGraspServer.

Variable env : Collaborators.

Lemma setup_no_motion :
  forallb (fun c => negb (is_motion_command c)) (setup env) = true.
Proof. reflexivity. Qed.

Lemma pose_targets_setup (tail : list Command) :
  pose_targets (setup env ++ tail) = pose_targets tail.
Proof. reflexivity. Qed.

Lemma plans_requested_setup (tail : list Command) :
  plans_requested (setup env ++ tail) = plans_requested tail.
Proof. reflexivity. Qed.

(** The grasp and the check send a fixed sequence that sets no pose target
    and requests no plan. *)
Lemma grasp_and_check_commands (safety_distance : Q) :
  exists between tail,
    fst (grasp_and_check env safety_distance)
    = [MoveGroupGo; Sleep 0.5; MoveEndEffectorByLine (mkVector3 0 0 1) safety_distance;
       GripperApplyForce 0.30]
      ++ between ++ [GripperApplyForce 0.50] ++ tail /\
    In MoveToNeutral between /\
    pose_targets (fst (grasp_and_check env safety_distance)) = [] /\
    plans_requested (fst (grasp_and_check env safety_distance)) = 0%nat /\
    ((-0.004 < get_distance env /\ tail = [] /\
      snd (grasp_and_check env safety_distance) = set_succeeded (Some (mkResult true)))
     \/ (get_distance env <= -0.004 /\ tail = [GripperCommand 1.0] /\
         snd (grasp_and_check env safety_distance) = set_aborted None)).
Proof.
  unfold grasp_and_check.
  destruct (get_end_effector_pose env "base_link") as [pose_vec pose_quat].
  exists [MoveEndEffectorPose
            (mkVector3 (vx pose_vec) (vy pose_vec) (vz pose_vec + 0.05), pose_quat);
          MoveEndEffectorByLine (mkVector3 0 0 1) (- safety_distance);
          OmniBaseGoRel (-0.2) 0.0 0.0 10; MoveToNeutral].
  destruct (Qlt_bool (-0.004) (get_distance env)) eqn:Hd.
  - apply Qlt_bool_true in Hd. exists []. cbn [fst snd].
    split; [reflexivity|]. split; [simpl; tauto|]. repeat split. left. auto.
  - apply Qlt_bool_false in Hd. exists [GripperCommand 1.0]. cbn [fst snd].
    split; [reflexivity|]. split; [simpl; tauto|]. repeat split. right. auto.
Qed.

Lemma execute_found (grasp_poses : list PoseStamped) cmds after safety_distance :
  grasp_loop env grasp_poses = (cmds, after, PlanFound safety_distance) ->
  execute env grasp_poses
  = mkRun (setup env ++ cmds ++ fst (grasp_and_check env safety_distance)) after
          (snd (grasp_and_check env safety_distance)).
Proof.
  intros H. unfold execute. rewrite H.
  destruct (grasp_and_check env safety_distance). reflexivity.
Qed.

End ExecuteFacts.

(** C3 (as amended).  When the first candidate with a plan, and every
    candidate before it, carries a frame tag, [execute] sets pose targets and
    requests plans for the candidates up to that one and no further, and
    moves to that candidate's pose target. *)
Theorem first_feasible_candidate_selected
  (env : ExecuteGraspServer.Collaborators)
  (pre : list PoseStamped) (c : PoseStamped) (post : list PoseStamped) :
  Forall (ExecuteGraspServer.passed_over env) pre ->
  ExecuteGraspServer.has_frame c = true ->
  ExecuteGraspServer.feasible env c = true ->
  let r := ExecuteGraspServer.execute env (pre ++ c :: post) in
  ExecuteGraspServer.pose_targets (ExecuteGraspServer.commands r)
  = map (ExecuteGraspServer.pose_target env) (pre ++ [c]) /\
  ExecuteGraspServer.plans_requested (ExecuteGraspServer.commands r)
  = S (List.length pre) /\
  exists before after,
    ExecuteGraspServer.commands r
    = before
      ++ [ExecuteGraspServer.SetPoseTarget (ExecuteGraspServer.pose_target env c);
          ExecuteGraspServer.MoveGroupPlan; ExecuteGraspServer.MoveGroupGo]
      ++ after.
Proof.
  intros Hpre Hf Hp r. subst r.
  rewrite (execute_found env _ _ _ _ (grasp_loop_found env pre c post Hpre Hf Hp)).
  cbn [ExecuteGraspServer.commands].
  destruct (grasp_and_check_commands env (ExecuteGraspServer.default_safety_distance env))
    as (between & tail & Hcmds & _ & Hpt & Hpl & _).
  rewrite pose_targets_setup, plans_requested_setup.
  rewrite pose_targets_planning, plans_requested_planning, Hpt, Hpl.
  rewrite app_nil_r, length_app, Nat.add_0_r, Nat.add_comm. cbn [List.length plus].
  split; [reflexivity|]. split; [reflexivity|].
  rewrite Hcmds, flat_map_app. cbn [flat_map ExecuteGraspServer.planning_commands app].
  exists (ExecuteGraspServer.setup env
          ++ flat_map (ExecuteGraspServer.planning_commands env) pre
          ++ [ExecuteGraspServer.AddMarker (ExecuteGraspServer.pose_target env c)]).
  eexists. rewrite <- !app_assoc. cbn [app]. reflexivity.
Qed.

(** C4.  When no candidate of the list has a plan, [execute] ends in
    [set_aborted], the result the client sees has [success = False], and no
    command that moves the robot was sent. *)
Theorem no_feasible_candidate_aborts_without_motion
  (env : ExecuteGraspServer.Collaborators) (grasp_poses : list PoseStamped) :
  Forall (fun c => ExecuteGraspServer.feasible env c = false) grasp_poses ->
  let r := ExecuteGraspServer.execute env grasp_poses in
  (exists result, ExecuteGraspServer.server r = ExecuteGraspServer.set_aborted result) /\
  ExecuteGraspServer.success (ExecuteGraspServer.reported (ExecuteGraspServer.server r))
  = false /\
  forallb (fun c => negb (ExecuteGraspServer.is_motion_command c))
          (ExecuteGraspServer.commands r) = true.
Proof.
  intros Hnone r. subst r.
  destruct (candidates_split env grasp_poses) as (pre & rest & -> & Hpre & Hrest).
  unfold ExecuteGraspServer.execute. destruct rest as [|c post].
  - rewrite app_nil_r, (grasp_loop_exhausted env pre Hpre).
    cbn [ExecuteGraspServer.server ExecuteGraspServer.commands].
    split; [eauto|]. split; [reflexivity|].
    rewrite !forallb_app, setup_no_motion, planning_commands_no_motion. reflexivity.
  - assert (Hc : ExecuteGraspServer.feasible env c = false).
    { rewrite Forall_forall in Hnone. apply Hnone, in_elt. }
    destruct Hrest as [Hf|[_ Hp]]; [|congruence].
    rewrite (grasp_loop_invalid env pre c post Hpre Hf).
    cbn [ExecuteGraspServer.server ExecuteGraspServer.commands].
    split; [eauto|]. split; [reflexivity|].
    rewrite !forallb_app, setup_no_motion, planning_commands_no_motion. reflexivity.
Qed.

(** C8 (as amended).  When the loop reaches a candidate without a frame tag,
    every candidate before it having a frame tag and no plan, [execute] ends
    at once in [set_aborted()]: nothing is sent for that candidate or a later
    one, and no command that moves the robot was sent. *)
Theorem empty_frame_aborts_when_reached
  (env : ExecuteGraspServer.Collaborators)
  (pre : list PoseStamped) (c : PoseStamped) (post : list PoseStamped) :
  Forall (ExecuteGraspServer.passed_over env) pre ->
  ExecuteGraspServer.has_frame c = false ->
  let r := ExecuteGraspServer.execute env (pre ++ c :: post) in
  ExecuteGraspServer.server r = ExecuteGraspServer.set_aborted None /\
  ExecuteGraspServer.commands r
  = ExecuteGraspServer.setup env
    ++ flat_map (ExecuteGraspServer.planning_commands env) pre /\
  forallb (fun c => negb (ExecuteGraspServer.is_motion_command c))
          (ExecuteGraspServer.commands r) = true.
Proof.
  intros Hpre Hf r. subst r. unfold ExecuteGraspServer.execute.
  rewrite (grasp_loop_invalid env pre c post Hpre Hf).
  cbn [ExecuteGraspServer.server ExecuteGraspServer.commands].
  split; [reflexivity|]. split; [reflexivity|].
  rewrite forallb_app, setup_no_motion, planning_commands_no_motion. reflexivity.
Qed.





(** C1 (as amended).  When a plan was found, [execute] closes the gripper
    with force 0.30, runs the post-grasp moves, closes it again with force
    0.50, and then ends in [set_succeeded] with [success = True] iff the
    gripper distance is greater than -0.004; otherwise it commands the
    gripper open, ends in [set_aborted()], and the client sees
    [success = False]. *)
Theorem grasp_succeeds_iff_distance_above_threshold
  (env : ExecuteGraspServer.Collaborators) (grasp_poses : list PoseStamped)
  (safety_distance : Q) :
  snd (ExecuteGraspServer.grasp_loop env grasp_poses)
  = ExecuteGraspServer.PlanFound safety_distance ->
  let r := ExecuteGraspServer.execute env grasp_poses in
  let sent := ExecuteGraspServer.commands r in
  let seen := ExecuteGraspServer.reported (ExecuteGraspServer.server r) in
  (exists before between tail,
     sent = before ++ [ExecuteGraspServer.GripperApplyForce 0.30] ++ between
            ++ [ExecuteGraspServer.GripperApplyForce 0.50] ++ tail /\
     In ExecuteGraspServer.MoveGroupGo before /\
     In ExecuteGraspServer.MoveToNeutral between /\
     ((-0.004 < ExecuteGraspServer.get_distance env /\ tail = [] /\
       ExecuteGraspServer.server r
       = ExecuteGraspServer.set_succeeded (Some (ExecuteGraspServer.mkResult true)))
      \/ (ExecuteGraspServer.get_distance env <= -0.004 /\
          tail = [ExecuteGraspServer.GripperCommand 1.0] /\
          ExecuteGraspServer.server r = ExecuteGraspServer.set_aborted None))) /\
  (ExecuteGraspServer.success seen = true
   <-> -0.004 < ExecuteGraspServer.get_distance env).
Proof.
  intros Hexit r sent seen. subst sent seen r.
  destruct (ExecuteGraspServer.grasp_loop env grasp_poses) as [[cmds after] exit] eqn:Hloop.
  cbn [snd] in Hexit. subst exit.
  rewrite (execute_found env _ _ _ _ Hloop).
  cbn [ExecuteGraspServer.commands ExecuteGraspServer.server].
  destruct (grasp_and_check_commands env safety_distance)
    as (between & tail & Hcmds & Hneutral & _ & _ & Hcheck).
  rewrite Hcmds. split.
  - exists (ExecuteGraspServer.setup env ++ cmds
            ++ [ExecuteGraspServer.MoveGroupGo; ExecuteGraspServer.Sleep 0.5;
                ExecuteGraspServer.MoveEndEffectorByLine (mkVector3 0 0 1)
                  safety_distance]), between, tail.
    split; [rewrite <- !app_assoc; reflexivity|].
    split; [rewrite !in_app_iff; simpl; tauto|].
    split; [exact Hneutral | exact Hcheck].
  - destruct Hcheck as [(Hd & _ & ->)|(Hd & _ & ->)]; simpl.
    + tauto.
    + split; [discriminate | intros; lra].
Qed.

(** *** The grasp stage on the simulated robot *)

(** The scenario of three candidates of which only the third has a plan,
    with a fourth behind it. *)
Lemma first_feasible_candidate_selected_witness :
  let env := Sim.robot 0 in
  let pre := [Sim.candidate "map" 0 0 0.1; Sim.candidate "map" 0 0 0.2] in
  let c := Sim.candidate "map" 0 0 1 in
  let post := [Sim.candidate "map" 0 0 2] in
  Forall (ExecuteGraspServer.passed_over env) pre /\
  ExecuteGraspServer.has_frame c = true /\
  ExecuteGraspServer.feasible env c = true /\
  ExecuteGraspServer.pose_targets
    (ExecuteGraspServer.commands (ExecuteGraspServer.execute env (pre ++ c :: post)))
  = map (ExecuteGraspServer.pose_target env) (pre ++ [c]).
Proof.
  intros env pre c post.
  assert (Hpre : Forall (ExecuteGraspServer.passed_over env) pre)
    by (repeat constructor).
  assert (Hf : ExecuteGraspServer.has_frame c = true) by reflexivity.
  assert (Hp : ExecuteGraspServer.feasible env c = true) by reflexivity.
  split; [exact Hpre|]. split; [exact Hf|]. split; [exact Hp|].
  exact (proj1 (first_feasible_candidate_selected env pre c post Hpre Hf Hp)).
Defined.

(** C3 as stated fails when a candidate before the first one with a plan has
    no frame tag: the second candidate has a plan, the first has none, and
    [execute] aborts without setting a pose target or moving. *)
Lemma feasible_candidate_behind_empty_frame_not_selected :
  let env := Sim.robot 0 in
  let grasp_poses := [Sim.candidate "" 0 0 0.1; Sim.candidate "map" 0 0 1] in
  let r := ExecuteGraspServer.execute env grasp_poses in
  map (ExecuteGraspServer.feasible env) grasp_poses = [false; true] /\
  ExecuteGraspServer.pose_targets (ExecuteGraspServer.commands r) = [] /\
  ExecuteGraspServer.plans_requested (ExecuteGraspServer.commands r) = 0%nat /\
  ExecuteGraspServer.server r = ExecuteGraspServer.set_aborted None /\
  ~ In ExecuteGraspServer.MoveGroupGo (ExecuteGraspServer.commands r).
Proof.
  repeat split. simpl. intuition discriminate.
Qed.

(** Two candidates without a plan, the second without a frame tag. *)
Lemma no_feasible_candidate_aborts_without_motion_witness :
  let env := Sim.robot 0 in
  let grasp_poses := [Sim.candidate "map" 0 0 0.1; Sim.candidate "" 0 0 0.2] in
  let r := ExecuteGraspServer.execute env grasp_poses in
  Forall (fun c => ExecuteGraspServer.feasible env c = false) grasp_poses /\
  ExecuteGraspServer.success (ExecuteGraspServer.reported (ExecuteGraspServer.server r))
  = false /\
  forallb (fun c => negb (ExecuteGraspServer.is_motion_command c))
          (ExecuteGraspServer.commands r) = true.
Proof.
  intros env grasp_poses r.
  assert (Hnone : Forall (fun c => ExecuteGraspServer.feasible env c = false) grasp_poses)
    by (repeat constructor).
  split; [exact Hnone|].
  exact (proj2 (no_feasible_candidate_aborts_without_motion env grasp_poses Hnone)).
Defined.

(** A candidate without a frame tag behind one without a plan. *)
Lemma empty_frame_aborts_when_reached_witness :
  let env := Sim.robot 0 in
  let pre := [Sim.candidate "map" 0 0 0.1] in
  let c := Sim.candidate "" 0 0 1 in
  let post := [Sim.candidate "map" 0 0 1] in
  Forall (ExecuteGraspServer.passed_over env) pre /\
  ExecuteGraspServer.has_frame c = false /\
  ExecuteGraspServer.server (ExecuteGraspServer.execute env (pre ++ c :: post))
  = ExecuteGraspServer.set_aborted None.
Proof.
  intros env pre c post.
  assert (Hpre : Forall (ExecuteGraspServer.passed_over env) pre)
    by (repeat constructor).
  assert (Hf : ExecuteGraspServer.has_frame c = false) by reflexivity.
  split; [exact Hpre|]. split; [exact Hf|].
  exact (proj1 (empty_frame_aborts_when_reached env pre c post Hpre Hf)).
Defined.

(** C8 as stated fails when the candidate without a frame tag comes after one
    with a plan: the grasp is executed and the stage succeeds. *)
Lemma empty_frame_behind_feasible_candidate_ignored :
  let env := Sim.robot 0 in
  let grasp_poses := [Sim.candidate "map" 0 0 1; Sim.candidate "" 0 0 1] in
  let r := ExecuteGraspServer.execute env grasp_poses in
  map ExecuteGraspServer.has_frame grasp_poses = [true; false] /\
  In ExecuteGraspServer.MoveGroupGo (ExecuteGraspServer.commands r) /\
  ExecuteGraspServer.server r
  = ExecuteGraspServer.set_succeeded (Some (ExecuteGraspServer.mkResult true)).
Proof.
  repeat split. simpl. tauto.
Qed.


(** Which candidates are rewritten.  An empty frame tag stops the loop
    before the candidate that carries it: of an infeasible candidate, one
    without a frame tag and a feasible one, only the first is rewritten.  A
    feasible candidate stops the loop after it: of two infeasible candidates,
    a feasible one and one more, the first three are rewritten. *)
Example rewritten_candidates :
  let env := Sim.robot 0 in
  let stopped := [Sim.candidate "map" 0 0 0.1; Sim.candidate "" 0 0 0.2;
                  Sim.candidate "map" 0 0 1] in
  let found := [Sim.candidate "map" 0 0 0.1; Sim.candidate "map" 0 0 0.2;
                Sim.candidate "map" 0 0 1; Sim.candidate "map" 0 0 2] in
  let stamps l := map (fun c => stamp (header c))
                      (ExecuteGraspServer.grasp_poses_after
                         (ExecuteGraspServer.execute env l)) in
  ExecuteGraspServer.examined env stopped = 1%nat /\
  stamps stopped = [7; 0; 0] /\
  ExecuteGraspServer.examined env found = 3%nat /\
  stamps found = [7; 7; 7; 0].
Proof.
  repeat split.
Qed.

(** A grasp with an object of width 0.02 between the fingers. *)
Lemma grasp_succeeds_iff_distance_above_threshold_witness :
  let env := Sim.robot 0.02 in
  let grasp_poses := [Sim.candidate "map" 0 0 1] in
  let r := ExecuteGraspServer.execute env grasp_poses in
  snd (ExecuteGraspServer.grasp_loop env grasp_poses)
  = ExecuteGraspServer.PlanFound 0.08 /\
  (ExecuteGraspServer.success (ExecuteGraspServer.reported (ExecuteGraspServer.server r))
   = true <-> -0.004 < ExecuteGraspServer.get_distance env).
Proof.
  intros env grasp_poses r.
  assert (Hexit : snd (ExecuteGraspServer.grasp_loop env grasp_poses)
                  = ExecuteGraspServer.PlanFound 0.08) by reflexivity.
  split; [exact Hexit|].
  exact (proj2 (grasp_succeeds_iff_distance_above_threshold env grasp_poses 0.08 Hexit)).
Defined.

(** C1 as stated fails at the aperture -0.01 of the scenario: it is below
    -0.004, and [execute] opens the gripper and aborts. *)
Lemma grasp_fails_at_aperture_below_threshold :
  let env := Sim.robot (-0.01) in
  let grasp_poses :=
    [Sim.candidate "map" 0 0 0.1; Sim.candidate "map" 0 0 0.2; Sim.candidate "map" 0 0 1] in
  let r := ExecuteGraspServer.execute env grasp_poses in
  ExecuteGraspServer.get_distance env < -0.004 /\
  List.length (ExecuteGraspServer.plan_points env
                 (ExecuteGraspServer.pose_target env (Sim.candidate "map" 0 0 1))) = 5%nat /\
  ExecuteGraspServer.server r = ExecuteGraspServer.set_aborted None /\
  ExecuteGraspServer.success (ExecuteGraspServer.reported (ExecuteGraspServer.server r))
  = false /\
  last (ExecuteGraspServer.commands r) ExecuteGraspServer.ClearOctomap
  = ExecuteGraspServer.GripperCommand 1.0.
Proof.
  repeat split.
Qed.

(** ** Collision objects from sensed surfaces *)

Section SurfaceFacts.

(** The grasp server keeps exactly the boxes whose centre is at height 0.2 or
    more, and every box it keeps is 0.04 wider in x and in y. *)
Lemma table_boxes_filters_and_pads (boxes : list BoundingBox3D)
      (b : ExecuteGraspServer.OrientedBoundingBox) :
  In b (ExecuteGraspServer.table_boxes boxes) ->
  exists ros_bb,
    In ros_bb boxes /\
    0.2 <= vz (position (center ros_bb)) /\
    vx (ExecuteGraspServer.extent b) = vx (size ros_bb) + 0.04 /\
    vy (ExecuteGraspServer.extent b) = vy (size ros_bb) + 0.04.
Proof.
  induction boxes as [|ros_bb rest IH]; [intros []|].
  cbn [ExecuteGraspServer.table_boxes].
  destruct (Qlt_bool _ 0.2) eqn:Hlow.
  - intros Hin. destruct (IH Hin) as (bb & Hbb & Hrest). exists bb. simpl. tauto.
  - apply Qlt_bool_false in Hlow. intros [<-|Hin].
    + exists ros_bb. simpl. auto.
    + destruct (IH Hin) as (bb & Hbb & Hrest). exists bb. simpl. tauto.
Qed.

(** The number of boxes the grasp server keeps is the number of boxes at
    height 0.2 or more. *)
Lemma table_boxes_length (boxes : list BoundingBox3D) :
  List.length (ExecuteGraspServer.table_boxes boxes)
  = List.length
      (filter (fun bb => negb (Qlt_bool (vz (position (center bb))) 0.2)) boxes).
Proof.
  induction boxes as [|ros_bb rest IH]; [reflexivity|].
  cbn [ExecuteGraspServer.table_boxes filter ExecuteGraspServer.ros_bb_to_o3d_bb
       ExecuteGraspServer.obb_center].
  destruct (Qlt_bool _ 0.2); simpl; congruence.
Qed.

(** The objects the grasp server sends have the extents of the kept boxes. *)
Lemma table_objects_sizes (counter : nat)
      (coll_objects : list ExecuteGraspServer.OrientedBoundingBox) :
  map (fun o => (ExecuteGraspServer.size_x o, ExecuteGraspServer.size_y o))
      (ExecuteGraspServer.table_objects counter coll_objects)
  = map (fun b => (vx (ExecuteGraspServer.extent b), vy (ExecuteGraspServer.extent b)))
        coll_objects.
Proof.
  revert counter. induction coll_objects as [|b rest IH]; intros counter;
    [reflexivity|].
  cbn [ExecuteGraspServer.table_objects map]. rewrite IH. reflexivity.
Qed.

(** The state widens every box of the response by 0.04 in x and in y. *)
Lemma rewrite_box_pads (ros_bb : BoundingBox3D) :
  vx (size (CreateCollisionObjects.rewrite_box ros_bb)) = vx (size ros_bb) + 0.04 /\
  vy (size (CreateCollisionObjects.rewrite_box ros_bb)) = vy (size ros_bb) + 0.04.
Proof. split; reflexivity. Qed.

(** The state makes one object of every box of the response, whatever its
    height, with the widened size. *)
Lemma table_planes_keeps_all (ADD : N) (frame_ : string) (idx : nat)
      (bbs : list BoundingBox3D) :
  map (fun o => (vx (CollisionEnvironment.co_size o), vy (CollisionEnvironment.co_size o)))
      (CreateCollisionObjects.table_planes ADD frame_ idx
         (map CreateCollisionObjects.rewrite_box bbs))
  = map (fun bb => (vx (size bb) + 0.04, vy (size bb) + 0.04)) bbs.
Proof.
  revert idx. induction bbs as [|bb rest IH]; intros idx; [reflexivity|].
  cbn [map CreateCollisionObjects.table_planes]. rewrite IH. reflexivity.
Qed.

End SurfaceFacts.

(** C2.  The claim fails on the [CreateCollisionObjects] state at a surface
    whose centre is at height 0.1: [get_table_collision_object] of the grasp
    server drops it, the state makes the object [Table_plane_0] of it. *)
Theorem low_surface_kept_by_state :
  let low := mkBoundingBox3D (mkPose (mkVector3 1 0 0.1) (mkQuaternion 0 0 0 1))
                             (mkVector3 1 1 0.02) in
  let response := CreateCollisionObjects.mkBoxes (mkHeader 0 "map") [low] in
  let base := (mkVector3 0 0 0, mkQuaternion 0 0 0 1) in
  vz (position (center low)) < 0.2 /\
  ExecuteGraspServer.table_boxes [low] = [] /\
  map CollisionEnvironment.name
      (fst (CreateCollisionObjects.execute Sim.ADD_BOX response base))
  = ["Table_plane_0"; "floor"; "front_wall"; "back_wall"; "left_wall"; "right_wall"] /\
  map (fun o => Qeq_bool (vx (CollisionEnvironment.co_size o)) 1.04)
      (firstn 1 (fst (CreateCollisionObjects.execute Sim.ADD_BOX response base)))
  = [true].
Proof.
  repeat split.
Qed.

(** ** The enclosure *)

(** C6 (as amended).  After the objects made of the sensed surfaces, the
    state emits the floor and four walls around the base, all added in the
    map frame: the front wall 2.0 ahead, the back wall 1.5 behind, the left
    and right walls 2.0 to either side.  The grasp server emits its own five:
    front and behind walls at 1.5, the left wall at 2.0 and the right wall at
    1.0. *)
Theorem enclosure_around_base
  (ADD : N) (response : CreateCollisionObjects.BoundingBox3DArray)
  (env : ExecuteGraspServer.Collaborators)
  (coll_objects : list ExecuteGraspServer.OrientedBoundingBox)
  (base : Vector3 * Quaternion) :
  let x := vx (fst base) in
  let y := vy (fst base) in
  let w := qw (snd base) in
  let slab name_ px py pz sx sy sz :=
    CollisionEnvironment.mkCollisionObject name_ "map" ADD
      (mkPose (mkVector3 px py pz) (mkQuaternion 0 0 0 w)) (mkVector3 sx sy sz) in
  let x' := vx (fst (ExecuteGraspServer.omni_base_pose env)) in
  let y' := vy (fst (ExecuteGraspServer.omni_base_pose env)) in
  let w' := qw (snd (ExecuteGraspServer.omni_base_pose env)) in
  let slab' name_ px py pz sx sy sz :=
    ExecuteGraspServer.mkCollisionObject
      (mkPose (mkVector3 px py pz) (mkQuaternion 0 0 0 w')) sx sy sz name_ "map"
      ExecuteGraspServer.ADD in
  (exists tables,
     List.length tables = List.length (CreateCollisionObjects.boxes response) /\
     fst (CreateCollisionObjects.execute ADD response base)
     = tables
       ++ [slab "floor" x y (-0.06) 15 15 0.1;
           slab "front_wall" (x + 2.0) y 0.05 0.01 4 0.1;
           slab "back_wall" (x - 1.5) y 0.05 0.01 4 0.1;
           slab "left_wall" x (y + 2.0) 0.05 4 0.01 0.1;
           slab "right_wall" x (y - 2.0) 0.05 4 0.01 0.1]) /\
  (exists tables,
     List.length tables = List.length coll_objects /\
     ExecuteGraspServer.collisionObject_list env coll_objects
     = tables
       ++ [slab' "floor" x' y' (-0.07) 15 15 0.1;
           slab' "front_wall" (x' + 1.5) y' 0.05 0.01 4 0.1;
           slab' "behind_wall" (x' - 1.5) y' 0.05 0.01 4 0.1;
           slab' "left_wall" x' (y' + 2.0) 0.05 4 0.01 0.1;
           slab' "right_wall" x' (y' - 1.0) 0.05 4 0.01 0.1]).
Proof.
  intros x y w slab x' y' w' slab'. split.
  - eexists. split; [|reflexivity].
    cbn [CreateCollisionObjects.get_table_plane_bbs CreateCollisionObjects.boxes].
    generalize 0%nat. generalize (CreateCollisionObjects.boxes response).
    induction l as [|bb l IH]; intros idx; [reflexivity|].
    cbn [map CreateCollisionObjects.table_planes List.length]. rewrite IH. reflexivity.
  - eexists. split; [|reflexivity].
    generalize 1%nat. induction coll_objects as [|b l IH]; intros counter; [reflexivity|].
    cbn [ExecuteGraspServer.table_objects List.length]. rewrite IH. reflexivity.
Qed.

(** C6 as stated fails for a base at the origin: nothing the state emits is
    2.0 behind the base, the back wall is at -1.5; and nothing the grasp
    server emits is 2.0 ahead of, 2.0 behind or 2.0 to the right of it. *)
Lemma no_wall_two_behind_the_base :
  let base := (mkVector3 0 0 0, mkQuaternion 0 0 0 1) in
  let response := CreateCollisionObjects.mkBoxes (mkHeader 0 "map") [] in
  let emitted := fst (CreateCollisionObjects.execute Sim.ADD_BOX response base) in
  let emitted' := ExecuteGraspServer.collisionObject_list (Sim.robot 0) [] in
  existsb (fun o => Qeq_bool (vx (position (CollisionEnvironment.co_pose o))) (-2.0))
          emitted = false /\
  map (fun o => (CollisionEnvironment.name o,
                 Qeq_bool (vx (position (CollisionEnvironment.co_pose o))) (-1.5)))
      emitted
  = [("floor", false); ("front_wall", false); ("back_wall", true);
     ("left_wall", false); ("right_wall", false)] /\
  existsb (fun o => Qeq_bool (vx (position (ExecuteGraspServer.co_pose o))) 2.0
                    || Qeq_bool (vx (position (ExecuteGraspServer.co_pose o))) (-2.0)
                    || Qeq_bool (vy (position (ExecuteGraspServer.co_pose o))) (-2.0))
          emitted' = false.
Proof.
  repeat split.
Qed.

(** * Further properties *)

(** ** Rotation by a quaternion *)

Section RotationFacts.

Import Geometry.

Lemma Qlt_bool_comp (a b c d : Q) : a == c -> b == d -> Qlt_bool a b = Qlt_bool c d.
Proof.
  intros Hac Hbd. destruct (Qlt_bool c d) eqn:H.
  - apply Qlt_bool_true in H. apply Qlt_bool_true. rewrite Hac, Hbd. exact H.
  - apply Qlt_bool_false in H. apply Qlt_bool_false. rewrite Hac, Hbd. exact H.
Qed.

(** A quaternion that is not taken for zero has a non-zero squared norm. *)
Lemma not_tiny_nonzero (n : Q) : Qlt_bool n Tf._EPS = false -> ~ n == 0.
Proof.
  intros H Hz. apply Qlt_bool_false in H. rewrite Hz in H. revert H.
  unfold Tf._EPS. apply Qlt_not_le. reflexivity.
Qed.

Lemma rotation_keeps_norm2 (q : Quaternion) (v : Vector3) :
  norm2 (qv_mult q v) == norm2 v.
Proof.
  destruct q as [x y z w], v as [a b c].
  unfold qv_mult, Tf.quaternion_matrix. cbn [qx qy qz qw].
  destruct (Qlt_bool (x * x + y * y + z * z + w * w) Tf._EPS) eqn:Htiny.
  - unfold norm2; simpl. ring.
  - apply not_tiny_nonzero in Htiny.
    unfold norm2, Tf.dot; cbn [vx vy vz]. field. exact Htiny.
Qed.

(** In exact arithmetic, [qv_mult] preserves the length of the vector,
    whatever the quaternion: unit or not, and also when it is taken for zero.
    (The numbers of this file are rationals; the rounding of the floats of
    the source is outside the model.) *)
Theorem qv_mult_preserves_length (q : Quaternion) (v : Vector3) :
  norm2 (qv_mult q v) == norm2 v.
Proof.
  destruct q as [x y z w], v as [a b c].
  unfold qv_mult, Tf.quaternion_matrix. cbn [qx qy qz qw].
  destruct (Qlt_bool (x * x + y * y + z * z + w * w) Tf._EPS) eqn:Htiny.
  - unfold norm2; simpl. ring.
  - apply not_tiny_nonzero in Htiny.
    unfold norm2, Tf.dot; cbn [vx vy vz]. field. exact Htiny.
Qed.

(** A quaternion and its negation rotate alike. *)
Theorem qv_mult_negated_quaternion (q : Quaternion) (v : Vector3) :
  Veq (qv_mult (qneg q) v) (qv_mult q v).
Proof.
  destruct q as [x y z w], v as [a b c].
  unfold qv_mult, Tf.quaternion_matrix, qneg. cbn [qx qy qz qw].
  assert (Hn : - x * - x + - y * - y + - z * - z + - w * - w
               == x * x + y * y + z * z + w * w) by ring.
  rewrite (Qlt_bool_comp _ _ _ _ Hn (Qeq_refl _)).
  destruct (Qlt_bool (x * x + y * y + z * z + w * w) Tf._EPS) eqn:Htiny.
  - unfold Veq; simpl. repeat split; ring.
  - apply not_tiny_nonzero in Htiny.
    assert (Htiny' : ~ - x * - x + - y * - y + - z * - z + - w * - w == 0)
      by (rewrite Hn; exact Htiny).
    unfold Veq, Tf.dot; cbn [vx vy vz]. repeat split; field; auto.
Qed.

End RotationFacts.

(** ** The safety offset *)

Section OffsetFacts.

Import Geometry ExecuteGraspServer.

(** A rotation about the vertical axis leaves the approach vector pointing
    straight down. *)
Lemma approach_vector_yaw_only (q : Quaternion) :
  qx q == 0 -> qy q == 0 ->
  Veq (qv_mult q (mkVector3 0 0 (-1))) (mkVector3 0 0 (-1)).
Proof.
  destruct q as [x y z w]. cbn [qx qy]. intros Hx Hy.
  unfold qv_mult, Tf.quaternion_matrix. cbn [qx qy qz qw].
  destruct (Qlt_bool (x * x + y * y + z * z + w * w) Tf._EPS) eqn:Htiny.
  - unfold Veq; simpl. repeat split; ring.
  - apply not_tiny_nonzero in Htiny. rewrite Hx, Hy in Htiny.
    unfold Veq, Tf.dot; cbn [vx vy vz]. rewrite Hx, Hy.
    assert (Hn : ~ z * z + w * w == 0).
    { intros H. apply Htiny. transitivity (z * z + w * w); [ring | exact H]. }
    repeat split; field; exact Hn.
Qed.

(** The offset law.  For a candidate whose orientation is a rotation about
    the vertical axis (the identity among them), the safety offset lowers the
    position by the safety distance and leaves x and y as they are. *)
Theorem offset_is_vertical_for_yaw_only (env : Collaborators) (c : PoseStamped) :
  qx (orientation (pose c)) == 0 -> qy (orientation (pose c)) == 0 ->
  let c' := offset_in_place env c in
  vx (position (pose c')) == vx (position (pose c)) /\
  vy (position (pose c')) == vy (position (pose c)) /\
  vz (position (pose c')) == vz (position (pose c)) - default_safety_distance env.
Proof.
  intros Hx Hy c'. subst c'.
  destruct (approach_vector_yaw_only _ Hx Hy) as (Hax & Hay & Haz).
  unfold offset_in_place, default_safety_distance. cbn [pose position vx vy vz] in *.
  rewrite Hax, Hay, Haz. repeat split; ring.
Qed.

Lemma offset_is_vertical_for_yaw_only_witness :
  let env := Sim.robot 0 in
  let c := Sim.candidate "map" 0.3 0 1 in
  qx (orientation (pose c)) == 0 /\ qy (orientation (pose c)) == 0 /\
  vz (position (pose (offset_in_place env c))) == 1 - 0.08.
Proof.
  intros env c.
  assert (Hx : qx (orientation (pose c)) == 0) by reflexivity.
  assert (Hy : qy (orientation (pose c)) == 0) by reflexivity.
  split; [exact Hx|]. split; [exact Hy|].
  exact (proj2 (proj2 (offset_is_vertical_for_yaw_only env c Hx Hy))).
Defined.

(** In exact arithmetic, whatever the orientation of the candidate, the
    safety offset moves its position by the safety distance: the squared
    length of the displacement is the square of the safety distance.  (The
    rounding of the floats of the source is outside the model.) *)
Theorem offset_moves_by_safety_distance (env : Collaborators) (c : PoseStamped) :
  norm2 (vsub (position (pose (offset_in_place env c))) (position (pose c)))
  == default_safety_distance env * default_safety_distance env.
Proof.
  pose proof (rotation_keeps_norm2 (orientation (pose c)) (mkVector3 0 0 (-1)))
    as Hlen.
  unfold offset_in_place, default_safety_distance. cbn [pose position].
  set (a := qv_mult (orientation (pose c)) (mkVector3 0 0 (-1))) in *.
  set (d := match param_safety_distance env with Some d => d | None => 0.08 end).
  unfold norm2, vsub in *. cbn [vx vy vz] in *.
  setoid_replace (0 * 0 + 0 * 0 + -1 * -1) with 1 in Hlen by ring.
  transitivity (d * d * (vx a * vx a + vy a * vy a + vz a * vz a)); [ring|].
  rewrite Hlen. ring.
Qed.

End OffsetFacts.

(** ** What the confirmation wait returns, and when *)

Section WaitReturns.

Import CollisionEnvironment.

Context {A : Type} {E : SceneEnv A}.

Variables (box_is_known box_is_attached : bool) (timeout : Q) (box_name : string).

Variable w0 : World A.

Local Abbreviation expected k :=
  (in_expected_state box_is_known box_is_attached box_name (at_poll k w0)).
Local Abbreviation down k := (is_shutdown (scene (at_poll k w0))).

(** The loop returns at the first poll at which the scene shows the expected
    state, the timeout has passed, or rospy is shut down. *)
Lemma wait_loop_returns (fuel k : nat) (start : Q) (b : bool) (w' : World A) :
  wait_loop fuel box_is_known box_is_attached timeout box_name start
            (now (at_poll k w0)) (at_poll k w0) = Some (b, w') ->
  exists n,
    (k <= n)%nat /\ w' = at_poll n w0 /\
    (forall j, (k <= j < n)%nat ->
               now (at_poll j w0) - start < timeout /\ down j = false /\
               expected j = false) /\
    (if b then now (at_poll n w0) - start < timeout /\ down n = false /\
               expected n = true
     else timeout <= now (at_poll n w0) - start \/ down n = true).
Proof.
  revert k. induction fuel as [|fuel IH]; intros k H; [discriminate|].
  cbn [wait_loop] in H.
  destruct (Qlt_bool (now (at_poll k w0) - start) timeout) eqn:Hc;
    [apply Qlt_bool_true in Hc | apply Qlt_bool_false in Hc].
  - destruct (down k) eqn:Hd; cbn [negb andb] in H.
    + injection H as <- <-. exists k.
      split; [lia|]. split; [reflexivity|]. split; [intros j Hj; lia|]. auto.
    + destruct (expected k) eqn:He.
      * injection H as <- <-. exists k.
        split; [lia|]. split; [reflexivity|]. split; [intros j Hj; lia|]. auto.
      * change (sleep 0.1 (at_poll k w0)) with (at_poll (S k) w0) in H.
        unfold get_time in H. destruct (IH _ H) as (n & Hkn & Hw & Hbefore & Hat).
        exists n. split; [lia|]. split; [exact Hw|]. split; [|exact Hat].
        intros j Hj. destruct (Nat.eq_dec j k) as [->|Hne]; [auto|].
        apply Hbefore. lia.
  - cbn [andb] in H. injection H as <- <-. exists k.
    split; [lia|]. split; [reflexivity|]. split; [intros j Hj; lia|]. auto.
Qed.

(** The same for [wait_for_state_update], whose loop starts at poll 0. *)
Lemma wait_for_state_update_returns :
  let r := wait_for_state_update box_is_known box_is_attached timeout box_name w0 in
  exists n,
    snd r = at_poll n w0 /\
    (forall j, (j < n)%nat ->
               now (at_poll j w0) - now w0 < timeout /\ down j = false /\
               expected j = false) /\
    (if fst r then now (at_poll n w0) - now w0 < timeout /\ down n = false /\
                   expected n = true
     else timeout <= now (at_poll n w0) - now w0 \/ down n = true).
Proof.
  intros r.
  destruct (wait_for_state_update_loop box_is_known box_is_attached timeout box_name w0)
    as [[b w'] [Hr Hloop]].
  subst r. rewrite Hr. cbn [fst snd].
  specialize (Hloop _ (le_n _)).
  destruct (wait_loop_returns _ 0%nat _ _ _ Hloop) as (n & _ & Hw & Hbefore & Hat).
  exists n. split; [exact Hw|]. split; [|exact Hat].
  intros j Hj. apply Hbefore. lia.
Qed.

End WaitReturns.

(** The wait confirms only what the scene shows: when it returns [True], the
    world it returns is in the expected state, rospy is up, and less than the
    timeout has passed since it began. *)
Theorem wait_true_means_expected_state
  {A : Type} {E : CollisionEnvironment.SceneEnv A}
  (box_is_known box_is_attached : bool) (timeout : Q) (box_name : string)
  (w : CollisionEnvironment.World A) :
  let r := CollisionEnvironment.wait_for_state_update
             box_is_known box_is_attached timeout box_name w in
  fst r = true ->
  CollisionEnvironment.in_expected_state box_is_known box_is_attached box_name (snd r)
  = true /\
  CollisionEnvironment.is_shutdown (CollisionEnvironment.scene (snd r)) = false /\
  CollisionEnvironment.now (snd r) - CollisionEnvironment.now w < timeout.
Proof.
  intros r Htrue.
  destruct (wait_for_state_update_returns box_is_known box_is_attached timeout
              box_name w) as (n & Hw & _ & Hat).
  fold r in Hw, Hat. rewrite Htrue in Hat. rewrite Hw. tauto.
Qed.

Lemma wait_elapsed
  {A : Type} {E : CollisionEnvironment.SceneEnv A}
  (box_is_known box_is_attached : bool) (timeout : Q) (box_name : string)
  (w : CollisionEnvironment.World A) :
  let r := CollisionEnvironment.wait_for_state_update
             box_is_known box_is_attached timeout box_name w in
  let elapsed := CollisionEnvironment.now (snd r) - CollisionEnvironment.now w in
  (exists n, snd r = CollisionEnvironment.at_poll n w) /\
  0 <= elapsed /\ (elapsed == 0 \/ elapsed < timeout + 0.1).
Proof.
  intros r elapsed.
  destruct (wait_for_state_update_returns box_is_known box_is_attached timeout
              box_name w) as (n & Hw & Hbefore & _).
  fold r in Hw. subst elapsed. rewrite Hw. split; [eauto|].
  pose proof (now_at_poll n w) as Hn.
  assert (Hnn : 0 <= inject_Z (Z.of_nat n)).
  { change 0 with (inject_Z 0). rewrite <- Zle_Qle. lia. }
  split; [lra|].
  destruct n as [|m]; [left; simpl; ring | right].
  destruct (Hbefore m (Nat.lt_succ_diag_r m)) as (Hlt & _).
  change (CollisionEnvironment.now (CollisionEnvironment.at_poll (S m) w))
    with (CollisionEnvironment.now (CollisionEnvironment.at_poll m w) + 0.1).
  lra.
Qed.

(** The wait only lets time pass: the world it returns is the one of some
    poll, the clock has not gone back, and either no time has passed or less
    than the timeout plus one poll interval, whether the wait confirmed, timed
    out or was cut short by a shutdown. *)
Theorem wait_blocks_less_than_timeout_and_one_poll
  {A : Type} {E : CollisionEnvironment.SceneEnv A}
  (box_is_known box_is_attached : bool) (timeout : Q) (box_name : string)
  (w : CollisionEnvironment.World A) :
  let r := CollisionEnvironment.wait_for_state_update
             box_is_known box_is_attached timeout box_name w in
  let elapsed := CollisionEnvironment.now (snd r) - CollisionEnvironment.now w in
  (exists n, snd r = CollisionEnvironment.at_poll n w) /\
  0 <= elapsed /\ (elapsed == 0 \/ elapsed < timeout + 0.1).
Proof.
  intros r elapsed.
  destruct (wait_for_state_update_returns box_is_known box_is_attached timeout
              box_name w) as (n & Hw & Hbefore & _).
  fold r in Hw. subst elapsed. rewrite Hw. split; [eauto|].
  pose proof (now_at_poll n w) as Hn.
  assert (Hnn : 0 <= inject_Z (Z.of_nat n)).
  { change 0 with (inject_Z 0). rewrite <- Zle_Qle. lia. }
  split; [lra|].
  destruct n as [|m]; [left; simpl; ring | right].
  destruct (Hbefore m (Nat.lt_succ_diag_r m)) as (Hlt & _).
  change (CollisionEnvironment.now (CollisionEnvironment.at_poll (S m) w))
    with (CollisionEnvironment.now (CollisionEnvironment.at_poll m w) + 0.1).
  lra.
Qed.

(** With a timeout of zero or less the wait returns [False] at once, without
    looking at the scene: not even a state that is already as expected is
    confirmed. *)
Theorem wait_with_no_timeout_never_confirms
  {A : Type} {E : CollisionEnvironment.SceneEnv A}
  (box_is_known box_is_attached : bool) (timeout : Q) (box_name : string)
  (w : CollisionEnvironment.World A) :
  timeout <= 0 ->
  CollisionEnvironment.wait_for_state_update
    box_is_known box_is_attached timeout box_name w = (false, w).
Proof.
  intros Hneg. unfold CollisionEnvironment.wait_for_state_update,
    CollisionEnvironment.poll_budget, CollisionEnvironment.get_time.
  cbn [CollisionEnvironment.wait_loop].
  assert (Hc : Qlt_bool (CollisionEnvironment.now w - CollisionEnvironment.now w)
                        timeout = false) by (apply Qlt_bool_false; lra).
  rewrite Hc. reflexivity.
Qed.

(** The wait confirms at the first poll that shows the expected state: when
    the scene first shows it at poll [n], rospy is up until then, and poll
    [n] comes before the timeout, the wait returns [True] in the world of
    that poll, [0.1 * n] after it began. *)
Theorem wait_confirms_at_first_expected_poll
  {A : Type} {E : CollisionEnvironment.SceneEnv A}
  (box_is_known box_is_attached : bool) (timeout : Q) (box_name : string)
  (w : CollisionEnvironment.World A) (n : nat) :
  (forall j, (j < n)%nat ->
             CollisionEnvironment.in_expected_state box_is_known box_is_attached
               box_name (CollisionEnvironment.at_poll j w) = false) ->
  CollisionEnvironment.in_expected_state box_is_known box_is_attached box_name
    (CollisionEnvironment.at_poll n w) = true ->
  (forall j, (j <= n)%nat ->
             CollisionEnvironment.is_shutdown
               (CollisionEnvironment.scene (CollisionEnvironment.at_poll j w)) = false) ->
  0.1 * inject_Z (Z.of_nat n) < timeout ->
  CollisionEnvironment.wait_for_state_update
    box_is_known box_is_attached timeout box_name w
  = (true, CollisionEnvironment.at_poll n w) /\
  CollisionEnvironment.now (CollisionEnvironment.at_poll n w)
  == CollisionEnvironment.now w + 0.1 * inject_Z (Z.of_nat n).
Proof.
  intros Hnot Hexp Hup Htime. split; [|apply now_at_poll].
  destruct (wait_for_state_update_returns box_is_known box_is_attached timeout
              box_name w) as (m & Hw & Hbefore & Hat).
  destruct (CollisionEnvironment.wait_for_state_update
              box_is_known box_is_attached timeout box_name w) as [b w'].
  cbn [fst snd] in *. subst w'.
  assert (Hmono : forall a c : nat, (a <= c)%nat ->
            CollisionEnvironment.now (CollisionEnvironment.at_poll a w)
            <= CollisionEnvironment.now (CollisionEnvironment.at_poll c w)).
  { intros a c Hac. rewrite !now_at_poll.
    assert (inject_Z (Z.of_nat a) <= inject_Z (Z.of_nat c))
      by (rewrite <- Zle_Qle; lia).
    lra. }
  pose proof (now_at_poll n w) as Hn.
  destruct (Nat.lt_trichotomy m n) as [Hlt|[->|Hgt]].
  - exfalso. destruct b.
    + destruct Hat as (_ & _ & He). rewrite (Hnot m Hlt) in He. discriminate.
    + destruct Hat as [Hout|Hdown].
      * pose proof (Hmono m n (Nat.lt_le_incl _ _ Hlt)). lra.
      * rewrite (Hup m (Nat.lt_le_incl _ _ Hlt)) in Hdown. discriminate.
  - destruct b; [reflexivity|]. exfalso. destruct Hat as [Hout|Hdown].
    + lra.
    + rewrite (Hup n (le_n n)) in Hdown. discriminate.
  - exfalso. destruct (Hbefore n Hgt) as (_ & _ & He).
    rewrite Hexp in He. discriminate.
Qed.

(** *** The wait on the simulated scene *)

(** A box whose add takes 0.25 to show is not confirmed at polls 0, 1 and 2
    and is confirmed at poll 3. *)
Lemma wait_confirms_at_first_expected_poll_witness :
  let w := CollisionEnvironment.on_scene (Sim.sim_add_box "b1")
             (Sim.empty_world 0.25 [] false) in
  (forall j, (j < 3)%nat ->
             CollisionEnvironment.in_expected_state true false "b1"
               (CollisionEnvironment.at_poll j w) = false) /\
  CollisionEnvironment.in_expected_state true false "b1"
    (CollisionEnvironment.at_poll 3 w) = true /\
  (forall j, (j <= 3)%nat ->
             CollisionEnvironment.is_shutdown
               (CollisionEnvironment.scene (CollisionEnvironment.at_poll j w)) = false) /\
  0.1 * inject_Z (Z.of_nat 3) < 4 /\
  Sim.sim_wait true false 4 "b1" w = (true, CollisionEnvironment.at_poll 3 w).
Proof.
  intros w.
  assert (Hnot : forall j, (j < 3)%nat ->
            CollisionEnvironment.in_expected_state true false "b1"
              (CollisionEnvironment.at_poll j w) = false).
  { intros [|[|[|j]]] Hj; try reflexivity. lia. }
  assert (Hexp : CollisionEnvironment.in_expected_state true false "b1"
                   (CollisionEnvironment.at_poll 3 w) = true) by reflexivity.
  assert (Hup : forall j, (j <= 3)%nat ->
            CollisionEnvironment.is_shutdown
              (CollisionEnvironment.scene (CollisionEnvironment.at_poll j w)) = false).
  { intros [|[|[|[|j]]]] Hj; try reflexivity. lia. }
  assert (Htime : 0.1 * inject_Z (Z.of_nat 3) < 4) by reflexivity.
  split; [exact Hnot|]. split; [exact Hexp|]. split; [exact Hup|].
  split; [exact Htime|].
  exact (proj1 (wait_confirms_at_first_expected_poll true false 4 "b1" w 3
                  Hnot Hexp Hup Htime)).
Defined.

Lemma wait_true_means_expected_state_witness :
  let w := CollisionEnvironment.on_scene (Sim.sim_add_box "b1")
             (Sim.empty_world 0.25 [] false) in
  let r := Sim.sim_wait true false 4 "b1" w in
  fst r = true /\
  CollisionEnvironment.in_expected_state true false "b1" (snd r) = true.
Proof.
  intros w r.
  assert (Htrue : fst r = true) by reflexivity.
  split; [exact Htrue|].
  exact (proj1 (wait_true_means_expected_state true false 4 "b1" w Htrue)).
Defined.

(** A box that is already in the scene, waited for with a timeout of 0. *)
Lemma wait_with_no_timeout_never_confirms_witness :
  let w := CollisionEnvironment.on_scene (Sim.sim_add_box "b1")
             (Sim.empty_world 0 [] false) in
  0 <= 0 /\
  CollisionEnvironment.in_expected_state true false "b1" w = true /\
  Sim.sim_wait true false 0 "b1" w = (false, w).
Proof.
  intros w.
  assert (Hneg : 0 <= 0) by discriminate.
  split; [exact Hneg|]. split; [reflexivity|].
  exact (wait_with_no_timeout_never_confirms true false 0 "b1" w Hneg).
Defined.

(** ** More on the batch *)

Section BatchMore.

Import CollisionEnvironment.

Context {A : Type} {E : SceneEnv A}.

Variables ADD REMOVE ATTACH DETACH : N.
Variable eef_link : string.

Local Abbreviation mutate' := (mutate ADD REMOVE ATTACH DETACH eef_link).
Local Abbreviation run_batch' := (run_batch ADD REMOVE ATTACH DETACH eef_link).

Lemma wait_elapsed_default (k a : bool) (box_name : string) (f : A -> A) (w : World A) :
  let r := wait_for_state_update k a 4 box_name (on_scene f w) in
  0 <= now (snd r) - now w /\ now (snd r) - now w < 4.1.
Proof.
  intros r. destruct (wait_elapsed k a 4 box_name (on_scene f w)) as (_ & Hpos & Hlt).
  fold r in Hpos, Hlt. change (now (on_scene f w)) with (now w) in Hpos, Hlt.
  split; [exact Hpos|]. destruct Hlt as [Hz|Hlt]; lra.
Qed.

(** One mutation blocks for less than its timeout of 4 and one poll. *)
Lemma mutate_elapsed (o : CollisionObject) (w : World A) :
  0 <= now (snd (mutate' o w)) - now w /\ now (snd (mutate' o w)) - now w < 4.1.
Proof.
  unfold mutate, add_box, remove_box, attach_box, detach_box.
  repeat match goal with
         | |- context [N.eqb ?x ?y] => destruct (N.eqb x y)
         end;
    try match goal with
        | |- context [wait_for_state_update ?k ?a 4 ?n (on_scene ?f w)] =>
            pose proof (wait_elapsed_default k a n f w) as Hw; cbv zeta in Hw;
            destruct (wait_for_state_update k a 4 n (on_scene f w)); exact Hw
        end.
  cbn [snd]. lra.
Qed.

Lemma run_batch_elapsed (l : list CollisionObject) (w : World A) :
  0 <= now (snd (run_batch' l w)) - now w /\
  now (snd (run_batch' l w)) - now w <= 4.1 * inject_Z (Z.of_nat (List.length l)).
Proof.
  revert w. induction l as [|o l IH]; intros w.
  - cbn [run_batch snd List.length]. change (inject_Z (Z.of_nat 0)) with 0.
    split; lra.
  - cbn [run_batch List.length]. pose proof (mutate_elapsed o w) as Ho.
    destruct (mutate' o w) as [r w1]. cbn [snd] in Ho.
    specialize (IH w1). destruct (run_batch' l w1) as [rs w2]. cbn [snd] in *.
    rewrite Nat2Z.inj_succ. unfold Z.succ. rewrite inject_Z_plus.
    change (inject_Z 1) with 1. lra.
Qed.

Lemma run_batch_app (l1 l2 : list CollisionObject) (w : World A) :
  run_batch' (l1 ++ l2) w
  = (fst (run_batch' l1 w) ++ fst (run_batch' l2 (snd (run_batch' l1 w))),
     snd (run_batch' l2 (snd (run_batch' l1 w)))).
Proof.
  revert w. induction l1 as [|o l1 IH]; intros w.
  - cbn [app run_batch fst snd]. destruct (run_batch' l2 w). reflexivity.
  - cbn [app run_batch]. destruct (mutate' o w) as [r w1]. rewrite IH.
    destruct (run_batch' l1 w1) as [rs w2]. reflexivity.
Qed.

Lemma mutate_unknown_method (o : CollisionObject) (w : World A) :
  ~ In (method o) [ADD; REMOVE; ATTACH; DETACH] -> mutate' o w = (None, w).
Proof.
  intros Hout. unfold mutate.
  repeat match goal with
         | |- context [N.eqb ?x ?y] => destruct (N.eqb_spec x y)
         end; try reflexivity; exfalso; apply Hout; simpl; auto.
Qed.

End BatchMore.

(** A batch blocks its caller for at most 4.1 per object: the clock never
    goes back during [execute], and advances by no more than 4.1 times the
    length of the batch. *)
Theorem batch_blocks_at_most_timeout_per_object
  {A : Type} {E : CollisionEnvironment.SceneEnv A}
  (ADD REMOVE ATTACH DETACH : N) (eef_link : string)
  (collision_objects : list CollisionEnvironment.CollisionObject)
  (w : CollisionEnvironment.World A) :
  let w' := snd (CollisionEnvironment.execute ADD REMOVE ATTACH DETACH eef_link
                   collision_objects w) in
  0 <= CollisionEnvironment.now w' - CollisionEnvironment.now w /\
  CollisionEnvironment.now w' - CollisionEnvironment.now w
  <= 4.1 * inject_Z (Z.of_nat (List.length collision_objects)).
Proof.
  intros w'. subst w'. rewrite execute_run_batch. cbn [snd].
  exact (run_batch_elapsed ADD REMOVE ATTACH DETACH eef_link collision_objects
           (CollisionEnvironment.on_scene CollisionEnvironment.clear_octomap w)).
Qed.

(** A batch that continues another: running [l1 ++ l2] is running [l1] and
    then the mutations of [l2] in the world [l1] left, and its [isDone] is the
    conjunction of the two; so a batch is never done when a prefix of it is
    not. *)
Theorem batch_of_concatenation
  {A : Type} {E : CollisionEnvironment.SceneEnv A}
  (ADD REMOVE ATTACH DETACH : N) (eef_link : string)
  (l1 l2 : list CollisionEnvironment.CollisionObject)
  (w : CollisionEnvironment.World A) :
  let first := CollisionEnvironment.execute ADD REMOVE ATTACH DETACH eef_link l1 w in
  let whole := CollisionEnvironment.execute ADD REMOVE ATTACH DETACH eef_link
                 (l1 ++ l2) w in
  let rest := CollisionEnvironment.run_batch ADD REMOVE ATTACH DETACH eef_link l2
                (snd first) in
  snd whole = snd rest /\
  exists done1,
    fst first
    = CollisionEnvironment.set_succeeded (CollisionEnvironment.mkResult done1) /\
    fst whole
    = CollisionEnvironment.set_succeeded
        (CollisionEnvironment.mkResult
           (done1 && forallb CollisionEnvironment.confirmed (fst rest))).
Proof.
  intros first whole rest. subst first whole rest.
  rewrite !execute_run_batch, run_batch_app. cbn [fst snd].
  split; [reflexivity|]. eexists. split; [reflexivity|].
  rewrite forallb_app. reflexivity.
Qed.

(** Objects whose [method] is none of the four constants are passed over:
    nothing is sent to the scene for them, no time passes, and they do not
    count against [isDone].  The empty batch is the special case. *)
Theorem batch_skips_unknown_methods
  {A : Type} {E : CollisionEnvironment.SceneEnv A}
  (ADD REMOVE ATTACH DETACH : N) (eef_link : string)
  (collision_objects : list CollisionEnvironment.CollisionObject)
  (w : CollisionEnvironment.World A) :
  (forall o, In o collision_objects ->
             ~ In (CollisionEnvironment.method o) [ADD; REMOVE; ATTACH; DETACH]) ->
  CollisionEnvironment.execute ADD REMOVE ATTACH DETACH eef_link collision_objects w
  = (CollisionEnvironment.set_succeeded (CollisionEnvironment.mkResult true),
     CollisionEnvironment.on_scene CollisionEnvironment.clear_octomap w).
Proof.
  intros Hunknown. rewrite execute_run_batch.
  generalize (CollisionEnvironment.on_scene CollisionEnvironment.clear_octomap w).
  induction collision_objects as [|o l IH]; intros w1; [reflexivity|].
  cbn [CollisionEnvironment.run_batch].
  rewrite mutate_unknown_method by (apply Hunknown; left; reflexivity).
  specialize (IH (fun o' Hin => Hunknown o' (or_intror Hin)) w1).
  destruct (CollisionEnvironment.run_batch ADD REMOVE ATTACH DETACH eef_link l w1)
    as [rs w2].
  cbn [fst snd] in *. injection IH as Hrs Hw. subst w2.
  cbn [forallb CollisionEnvironment.confirmed]. rewrite Hrs. reflexivity.
Qed.

Lemma batch_skips_unknown_methods_witness :
  let l := [Sim.box "b1" 9; Sim.box "b2" 4] in
  let w := Sim.empty_world 0.25 [] false in
  (forall o, In o l ->
             ~ In (CollisionEnvironment.method o)
                  [Sim.ADD_BOX; Sim.REMOVE_BOX; Sim.ATTACH_BOX; Sim.DETACH_BOX]) /\
  Sim.sim_execute l w
  = (CollisionEnvironment.set_succeeded (CollisionEnvironment.mkResult true), w).
Proof.
  intros l w.
  assert (Hunknown : forall o, In o l ->
            ~ In (CollisionEnvironment.method o)
                 [Sim.ADD_BOX; Sim.REMOVE_BOX; Sim.ATTACH_BOX; Sim.DETACH_BOX]).
  { intros o [<-|[<-|[]]]; simpl; intuition discriminate. }
  split; [exact Hunknown|].
  exact (batch_skips_unknown_methods Sim.ADD_BOX Sim.REMOVE_BOX Sim.ATTACH_BOX
           Sim.DETACH_BOX "hand_palm_link" l w Hunknown).
Defined.

(** ** The names of the emitted collision objects *)

Section NameFacts.

Lemma str_injective (a b : nat) : str a = str b -> a = b.
Proof.
  unfold str. intros H.
  apply (f_equal NilEmpty.uint_of_string) in H. rewrite !NilEmpty.usu in H.
  injection H as H. apply (f_equal Nat.of_uint) in H.
  rewrite !DecimalNat.Unsigned.of_to in H. exact H.
Qed.

Lemma NoDup_map_injective {X Y : Type} (f : X -> Y) (l : list X) :
  (forall x y, f x = f y -> x = y) -> NoDup l -> NoDup (map f l).
Proof.
  intros Hinj. induction 1 as [|x l Hx _ IH]; simpl; constructor; [|exact IH].
  rewrite in_map_iff. intros (y & Hxy & Hy). apply Hinj in Hxy. subst y. auto.
Qed.

Lemma numbered_names_NoDup (prefix : string) (start len : nat) :
  NoDup (map (fun i => (prefix ++ str i)%string) (seq start len)).
Proof.
  apply NoDup_map_injective; [|apply seq_NoDup].
  intros x y H. apply str_injective.
  induction prefix as [|c prefix IH]; [exact H|].
  simpl in H. injection H as H. exact (IH H).
Qed.

Lemma table_planes_names (ADD : N) (frame_ : string) (idx : nat)
      (bbs : list BoundingBox3D) :
  map CollisionEnvironment.name (CreateCollisionObjects.table_planes ADD frame_ idx bbs)
  = map (fun i => ("Table_plane_" ++ str i)%string) (seq idx (List.length bbs)).
Proof.
  revert idx. induction bbs as [|bb bbs IH]; intros idx; [reflexivity|].
  cbn [CreateCollisionObjects.table_planes map List.length seq
       CreateCollisionObjects.create_collision_object CollisionEnvironment.name].
  rewrite IH, Nat.add_1_r. reflexivity.
Qed.

Lemma table_objects_names (counter : nat)
      (coll_objects : list ExecuteGraspServer.OrientedBoundingBox) :
  map ExecuteGraspServer.name (ExecuteGraspServer.table_objects counter coll_objects)
  = map (fun i => ("collision_object" ++ str i)%string)
        (seq counter (List.length coll_objects)).
Proof.
  revert counter. induction coll_objects as [|b l IH]; intros counter; [reflexivity|].
  cbn [ExecuteGraspServer.table_objects map List.length seq ExecuteGraspServer.name].
  rewrite IH. reflexivity.
Qed.

End NameFacts.

(** The objects the [CreateCollisionObjects] state sends have pairwise
    distinct names, however many boxes the response holds. *)
Theorem state_object_names_distinct
  (ADD : N) (response : CreateCollisionObjects.BoundingBox3DArray)
  (base : Vector3 * Quaternion) :
  NoDup (map CollisionEnvironment.name
             (fst (CreateCollisionObjects.execute ADD response base))).
Proof.
  unfold CreateCollisionObjects.execute. cbn [fst]. rewrite map_app.
  apply NoDup_app.
  - rewrite table_planes_names. apply numbered_names_NoDup.
  - simpl. repeat constructor; simpl; intuition discriminate.
  - intros a Ha Hb. rewrite table_planes_names, in_map_iff in Ha.
    destruct Ha as (i & <- & _). simpl in Hb. intuition discriminate.
Qed.

(** The objects the grasp server sends have pairwise distinct names. *)
Theorem server_object_names_distinct
  (env : ExecuteGraspServer.Collaborators)
  (coll_objects : list ExecuteGraspServer.OrientedBoundingBox) :
  NoDup (map ExecuteGraspServer.name
             (ExecuteGraspServer.collisionObject_list env coll_objects)).
Proof.
  unfold ExecuteGraspServer.collisionObject_list. rewrite map_app.
  apply NoDup_app.
  - rewrite table_objects_names. apply numbered_names_NoDup.
  - simpl. repeat constructor; simpl; intuition discriminate.
  - intros a Ha Hb. rewrite table_objects_names, in_map_iff in Ha.
    destruct Ha as (i & <- & _). simpl in Hb. intuition discriminate.
Qed.

(** ** The boxes made of sensed surfaces *)

Section BoxFacts.

Import Geometry.




End BoxFacts.


(** The grasp server makes one object of every sensed box at height 0.2 or
    more, in order, with the same horizontal centre; the object reaches from
    0.1 below the ground to 0.1 below the top face of the sensed box. *)
Theorem server_box_from_ground_to_surface
  (counter : nat) (boxes : list BoundingBox3D) :
  Forall2
    (fun ros_bb o =>
       vx (position (ExecuteGraspServer.co_pose o)) = vx (position (center ros_bb)) /\
       vy (position (ExecuteGraspServer.co_pose o)) = vy (position (center ros_bb)) /\
       Geometry.bottom_face (vz (position (ExecuteGraspServer.co_pose o)))
                            (ExecuteGraspServer.size_z o) == - 0.1 /\
       Geometry.top_face (vz (position (ExecuteGraspServer.co_pose o)))
                         (ExecuteGraspServer.size_z o)
       == Geometry.top_face (vz (position (center ros_bb))) (vz (size ros_bb)) - 0.1)
    (filter (fun ros_bb => negb (Qlt_bool (vz (position (center ros_bb))) 0.2)) boxes)
    (ExecuteGraspServer.table_objects counter (ExecuteGraspServer.table_boxes boxes)).
Proof.
  revert counter. induction boxes as [|bb boxes IH]; intros counter; [constructor|].
  cbn [filter ExecuteGraspServer.table_boxes ExecuteGraspServer.ros_bb_to_o3d_bb
       ExecuteGraspServer.obb_center].
  destruct (Qlt_bool (vz (position (center bb))) 0.2); cbn [negb]; [apply IH|].
  cbn [ExecuteGraspServer.table_objects]. constructor; [|apply IH].
  unfold Geometry.top_face, Geometry.bottom_face.
  cbn [ExecuteGraspServer.co_pose ExecuteGraspServer.size_z position
       ExecuteGraspServer.obb_center ExecuteGraspServer.extent
       ExecuteGraspServer.ros_bb_to_o3d_bb vx vy vz].
  repeat split; try reflexivity;
    generalize (vz (position (center bb))) (vz (size bb)); intros c s; field.
Qed.

(** ** More on the grasp stage *)

(** When the grasp stage succeeds.  [execute] ends in [set_succeeded] exactly
    when the loop reaches a candidate with a frame tag and a plan, having
    passed over the candidates before it, and the gripper distance read after
    the grasp is greater than -0.004; the result then has [success = True]. *)
Theorem grasp_stage_succeeds_exactly_when
  (env : ExecuteGraspServer.Collaborators) (grasp_poses : list PoseStamped) :
  let r := ExecuteGraspServer.execute env grasp_poses in
  (forall result,
     ExecuteGraspServer.server r = ExecuteGraspServer.set_succeeded result ->
     result = Some (ExecuteGraspServer.mkResult true)) /\
  (ExecuteGraspServer.server r
   = ExecuteGraspServer.set_succeeded (Some (ExecuteGraspServer.mkResult true))
   <-> (exists pre c post,
          grasp_poses = pre ++ c :: post /\
          Forall (ExecuteGraspServer.passed_over env) pre /\
          ExecuteGraspServer.has_frame c = true /\
          ExecuteGraspServer.feasible env c = true) /\
       -0.004 < ExecuteGraspServer.get_distance env).
Proof.
  intros r. subst r.
  destruct (candidates_split env grasp_poses) as (pre & rest & -> & Hpre & Hrest).
  destruct rest as [|c post].
  - rewrite app_nil_r. unfold ExecuteGraspServer.execute.
    rewrite (grasp_loop_exhausted env pre Hpre). cbn [ExecuteGraspServer.server].
    split; [discriminate|]. split; [discriminate|].
    intros [(pre' & c' & post' & Heq & Hpre' & Hf & Hp) _]. exfalso.
    pose proof (grasp_loop_found env pre' c' post' Hpre' Hf Hp) as Hfound.
    rewrite <- Heq, (grasp_loop_exhausted env pre Hpre) in Hfound. discriminate.
  - destruct Hrest as [Hf|[Hf Hp]].
    + unfold ExecuteGraspServer.execute.
      rewrite (grasp_loop_invalid env pre c post Hpre Hf).
      cbn [ExecuteGraspServer.server].
      split; [discriminate|]. split; [discriminate|].
      intros [(pre' & c' & post' & Heq & Hpre' & Hf' & Hp') _]. exfalso.
      pose proof (grasp_loop_found env pre' c' post' Hpre' Hf' Hp') as Hfound.
      rewrite <- Heq, (grasp_loop_invalid env pre c post Hpre Hf) in Hfound.
      discriminate.
    + rewrite (execute_found env _ _ _ _ (grasp_loop_found env pre c post Hpre Hf Hp)).
      cbn [ExecuteGraspServer.server].
      destruct (grasp_and_check_commands env
                  (ExecuteGraspServer.default_safety_distance env))
        as (_ & _ & _ & _ & _ & _ & [(Hd & _ & ->)|(Hd & _ & ->)]).
      * split; [intros result H; injection H as <-; reflexivity|].
        split; [intros _|reflexivity].
        split; [exists pre, c, post; auto | exact Hd].
      * split; [discriminate|]. split; [discriminate|].
        intros [_ Hd']. exfalso. lra.
Qed.

(** The plans requested follow the candidate list: [execute] sets the pose
    targets of the first [n] candidates, in order, and requests exactly [n]
    plans, for some [n] up to the length of the list. *)
Theorem plans_follow_candidate_order
  (env : ExecuteGraspServer.Collaborators) (grasp_poses : list PoseStamped) :
  let sent := ExecuteGraspServer.commands (ExecuteGraspServer.execute env grasp_poses) in
  exists n,
    (n <= List.length grasp_poses)%nat /\
    ExecuteGraspServer.pose_targets sent
    = map (ExecuteGraspServer.pose_target env) (firstn n grasp_poses) /\
    ExecuteGraspServer.plans_requested sent = n.
Proof.
  intros sent. subst sent.
  destruct (candidates_split env grasp_poses) as (pre & rest & -> & Hpre & Hrest).
  destruct rest as [|c post].
  - exists (List.length pre). rewrite app_nil_r. unfold ExecuteGraspServer.execute.
    rewrite (grasp_loop_exhausted env pre Hpre). cbn [ExecuteGraspServer.commands].
    rewrite pose_targets_setup, plans_requested_setup.
    rewrite pose_targets_planning, plans_requested_planning, firstn_all, app_nil_r.
    cbn [ExecuteGraspServer.plans_requested]. split; [lia|]. split; [reflexivity | lia].
  - destruct Hrest as [Hf|[Hf Hp]].
    + exists (List.length pre). unfold ExecuteGraspServer.execute.
      rewrite (grasp_loop_invalid env pre c post Hpre Hf).
      cbn [ExecuteGraspServer.commands].
      rewrite <- (app_nil_r (flat_map _ pre)).
      rewrite pose_targets_setup, plans_requested_setup.
      rewrite pose_targets_planning, plans_requested_planning.
      rewrite firstn_app, firstn_all, Nat.sub_diag, length_app.
      cbn [firstn ExecuteGraspServer.pose_targets ExecuteGraspServer.plans_requested].
      rewrite !app_nil_r. split; [lia|]. split; [reflexivity | lia].
    + exists (S (List.length pre)).
      rewrite (execute_found env _ _ _ _ (grasp_loop_found env pre c post Hpre Hf Hp)).
      cbn [ExecuteGraspServer.commands].
      destruct (grasp_and_check_commands env
                  (ExecuteGraspServer.default_safety_distance env))
        as (_ & _ & _ & _ & Hpt & Hpl & _).
      rewrite pose_targets_setup, plans_requested_setup.
      rewrite pose_targets_planning, plans_requested_planning, Hpt, Hpl.
      rewrite firstn_app, length_app.
      replace (S (List.length pre) - List.length pre)%nat with 1%nat by lia.
      rewrite firstn_all2 by lia. cbn [firstn List.length].
      rewrite !app_nil_r. split; [lia|]. split; [reflexivity|].
      rewrite length_app. cbn [List.length]. lia.
Qed.

(** ** The operator's prompt *)

Section UserInputFacts.

Import NoMapStatemachine.

Lemma lower_ascii_idempotent (c : Ascii.ascii) :
  lower_ascii (lower_ascii c) = lower_ascii c.
Proof.
  destruct c as [[|] [|] [|] [|] [|] [|] [|] [|]]; reflexivity.
Qed.

Lemma lower_idempotent (s : string) : lower (lower s) = lower s.
Proof.
  induction s as [|c s IH]; [reflexivity|].
  cbn [lower]. rewrite lower_ascii_idempotent, IH. reflexivity.
Qed.

Lemma lower_length (s : string) : String.length (lower s) = String.length s.
Proof.
  induction s as [|c s IH]; [reflexivity|]. cbn [lower String.length]. congruence.
Qed.

Lemma raw_input_char_shorter (stdin : list string) (c : string) (rest : list string) :
  raw_input_char stdin = Some (c, rest) ->
  (List.length rest < List.length stdin)%nat.
Proof.
  revert c rest. induction stdin as [|l stdin IH]; intros c rest H; [discriminate|].
  cbn [raw_input_char] in H. destruct (String.length l =? 1)%nat.
  - injection H as <- <-. simpl. lia.
  - apply IH in H. simpl. lia.
Qed.

(** Reading from the input reduced to its commands is reading from the input
    itself. *)
Lemma raw_input_char_commands (stdin : list string) :
  raw_input_char (commands_of stdin)
  = match raw_input_char stdin with
    | Some (c, rest) => Some (lower c, commands_of rest)
    | None => None
    end.
Proof.
  induction stdin as [|l stdin IH]; [reflexivity|].
  unfold commands_of in *. cbn [filter raw_input_char].
  destruct (String.length l =? 1)%nat eqn:Hl; [|exact IH].
  cbn [map raw_input_char]. rewrite lower_length, Hl. reflexivity.
Qed.

Variable is_shutdown : nat -> bool.

Local Abbreviation loop := (command_loop is_shutdown).

(** More fuel does not change an answer. *)
Lemma command_loop_fuel_S (fuel polls : nat) (userdata : UserData)
      (stdin : list string) r :
  loop fuel polls userdata stdin = Some r ->
  loop (S fuel) polls userdata stdin = Some r.
Proof.
  revert polls userdata stdin.
  induction fuel as [|fuel IH]; intros polls userdata stdin H; [discriminate|].
  remember (S fuel) as f eqn:Hf. cbn [command_loop]. subst f.
  cbn [command_loop] in H.
  repeat match goal with
         | |- context [if ?b then _ else _] => destruct b
         | |- context [match raw_input_char ?l with _ => _ end] =>
             destruct (raw_input_char l) as [[? ?]|]
         | |- context [match found_grasp_pose ?u with _ => _ end] =>
             destruct (found_grasp_pose u)
         end; auto.
Qed.

Lemma command_loop_fuel_le (fuel fuel' polls : nat) (userdata : UserData)
      (stdin : list string) r :
  (fuel <= fuel')%nat ->
  loop fuel polls userdata stdin = Some r ->
  loop fuel' polls userdata stdin = Some r.
Proof.
  induction 1 as [|m _ IH]; [trivial|].
  intros H. apply command_loop_fuel_S, IH, H.
Qed.

(** The loop answers when it has more fuel than there are lines. *)
Lemma command_loop_answers (fuel polls : nat) (userdata : UserData)
      (stdin : list string) :
  (List.length stdin < fuel)%nat ->
  exists r, loop fuel polls userdata stdin = Some r.
Proof.
  revert polls userdata stdin.
  induction fuel as [|fuel IH]; intros polls userdata stdin Hlen; [lia|].
  cbn [command_loop].
  destruct (is_shutdown polls); [eauto|].
  destruct (raw_input_char stdin) as [[c rest]|] eqn:Hread; [|eauto].
  apply raw_input_char_shorter in Hread.
  assert (Hrest : forall u, exists r, loop fuel (S polls) u rest = Some r)
    by (intros u; apply IH; lia).
  assert (Hrest2 : forall c' rest', raw_input_char rest = Some (c', rest') ->
            forall u, exists r, loop fuel (S polls) u rest' = Some r).
  { intros c' rest' H u. apply raw_input_char_shorter in H. apply IH. lia. }
  repeat match goal with
         | |- context [if ?b then _ else _] => destruct b
         | |- context [match raw_input_char ?l with _ => _ end] =>
             destruct (raw_input_char l) as [[? ?]|] eqn:?
         | |- context [match found_grasp_pose ?u with _ => _ end] =>
             destruct (found_grasp_pose u)
         end; eauto.
Qed.

(** [execute] is the loop run to its end. *)
Lemma execute_loop (userdata : UserData) (stdin : list string) (fuel : nat) :
  (List.length stdin < fuel)%nat ->
  loop fuel 0
       (mkUserData (found_grasp_pose userdata) (grasp_height userdata)
                   (find_grasppoint_method userdata)
                   (Some ["apple"; "sports ball"; "orange"; "bottle"])
                   (safety_distance userdata))
       stdin
  = Some (execute is_shutdown userdata stdin).
Proof.
  intros Hlen. unfold execute.
  destruct (command_loop_answers (S (List.length stdin)) 0
              (mkUserData (found_grasp_pose userdata) (grasp_height userdata)
                 (find_grasppoint_method userdata)
                 (Some ["apple"; "sports ball"; "orange"; "bottle"])
                 (safety_distance userdata)) stdin (Nat.lt_succ_diag_r _)) as [r Hr].
  rewrite Hr. eapply command_loop_fuel_le; [|exact Hr]. lia.
Qed.

(** The loop on the input reduced to its commands is the loop on the input. *)
Lemma command_loop_commands (fuel polls : nat) (userdata : UserData)
      (stdin : list string) :
  loop fuel polls userdata (commands_of stdin)
  = match loop fuel polls userdata stdin with
    | Some (e, u, rest) => Some (e, u, commands_of rest)
    | None => None
    end.
Proof.
  revert polls userdata stdin.
  induction fuel as [|fuel IH]; intros polls userdata stdin; [reflexivity|].
  cbn [command_loop]. destruct (is_shutdown polls); [reflexivity|].
  rewrite raw_input_char_commands.
  destruct (raw_input_char stdin) as [[c rest]|]; [|reflexivity].
  rewrite lower_idempotent.
  repeat match goal with
         | |- context [if ?b then _ else _] => destruct b; try reflexivity
         end;
    rewrite ?raw_input_char_commands;
    repeat match goal with
           | |- context [match raw_input_char ?l with _ => _ end] =>
               destruct (raw_input_char l) as [[? ?]|]; try reflexivity
           | |- context [match found_grasp_pose ?u with _ => _ end] =>
               destruct (found_grasp_pose u); try reflexivity
           end;
    rewrite ?lower_idempotent;
    repeat match goal with
           | |- context [if ?b then _ else _] => destruct b; try reflexivity
           end;
    apply IH.
Qed.

(** What every pass of the loop keeps, and what it returns with. *)
Lemma command_loop_invariant (fuel polls : nat) (userdata : UserData)
      (stdin : list string) e u rest :
  loop fuel polls userdata stdin = Some (e, u, rest) ->
  found_grasp_pose u = found_grasp_pose userdata /\
  objects_to_find u = objects_to_find userdata /\
  match e with
  | Returned outcome =>
      In outcome UserInput_outcomes /\
      (outcome = "grasping" ->
       find_grasppoint_method u = Some 1%Z /\ grasp_height u = Some 0.05 /\
       safety_distance u = Some 0.14) /\
      (outcome = "find_grasp" -> find_grasppoint_method u = Some 1%Z) /\
      (outcome = "execute_grasp" -> found_grasp_pose userdata <> None)
  | _ => True
  end.
Proof.
  revert polls userdata stdin.
  induction fuel as [|fuel IH]; intros polls userdata stdin H; [discriminate|].
  cbn [command_loop] in H.
  repeat match type of H with
         | context [match found_grasp_pose ?x with _ => _ end] =>
             let E := fresh "Hpose" in destruct (found_grasp_pose x) eqn:E
         | context [match raw_input_char ?l with _ => _ end] =>
             destruct (raw_input_char l) as [[? ?]|]
         | context [if ?b then _ else _] => destruct b
         end;
    try solve [injection H as <- <- <-; cbn;
               repeat split; try reflexivity; try (intros; discriminate);
               try (intros; congruence); simpl; auto 10];
    apply IH in H; cbn in H;
    try match goal with Hp : found_grasp_pose _ = _ |- _ => rewrite Hp in H end;
    exact H.
Qed.

End UserInputFacts.

Section UserInputMore.

Import NoMapStatemachine.

Variable is_shutdown : nat -> bool.

Lemma commands_of_length (stdin : list string) :
  (List.length (commands_of stdin) <= List.length stdin)%nat.
Proof.
  unfold commands_of. rewrite length_map. induction stdin as [|l stdin IH]; [simpl; lia|].
  cbn [filter]. destruct (String.length l =? 1)%nat; simpl; lia.
Qed.

(** [execute] on the input reduced to its commands. *)
Lemma execute_commands (userdata : UserData) (stdin : list string) :
  execute is_shutdown userdata (commands_of stdin)
  = (let '(e, u, rest) := execute is_shutdown userdata stdin in
     (e, u, commands_of rest)).
Proof.
  pose proof (commands_of_length stdin) as Hlen.
  pose proof (execute_loop is_shutdown userdata (commands_of stdin)
                (S (List.length stdin)) ltac:(lia)) as H1.
  pose proof (execute_loop is_shutdown userdata stdin
                (S (List.length stdin)) ltac:(lia)) as H2.
  rewrite command_loop_commands, H2 in H1.
  destruct (execute is_shutdown userdata stdin) as [[e u] rest].
  injection H1 as H1. symmetry. exact H1.
Qed.

Lemma execute_invariant (userdata : UserData) (stdin : list string) e u rest :
  execute is_shutdown userdata stdin = (e, u, rest) ->
  found_grasp_pose u = found_grasp_pose userdata /\
  objects_to_find u = Some ["apple"; "sports ball"; "orange"; "bottle"] /\
  match e with
  | Returned outcome =>
      In outcome UserInput_outcomes /\
      (outcome = "grasping" ->
       find_grasppoint_method u = Some 1%Z /\ grasp_height u = Some 0.05 /\
       safety_distance u = Some 0.14) /\
      (outcome = "find_grasp" -> find_grasppoint_method u = Some 1%Z) /\
      (outcome = "execute_grasp" -> found_grasp_pose userdata <> None)
  | _ => True
  end.
Proof.
  intros H.
  pose proof (execute_loop is_shutdown userdata stdin
                (S (List.length stdin)) ltac:(lia)) as Hloop.
  rewrite H in Hloop. apply command_loop_invariant in Hloop. exact Hloop.
Qed.

End UserInputMore.

(** The prompt reads commands only: lines that are not one character long
    are ignored and upper case is read as lower case, so two inputs with the
    same one-character lines up to case end [UserInput.execute] in the same
    way, with the same userdata. *)
Theorem user_input_reads_only_commands
  (is_shutdown : nat -> bool) (userdata : NoMapStatemachine.UserData)
  (stdin1 stdin2 : list string) :
  NoMapStatemachine.commands_of stdin1 = NoMapStatemachine.commands_of stdin2 ->
  fst (NoMapStatemachine.execute is_shutdown userdata stdin1)
  = fst (NoMapStatemachine.execute is_shutdown userdata stdin2).
Proof.
  intros Hsame.
  pose proof (execute_commands is_shutdown userdata stdin1) as H1.
  pose proof (execute_commands is_shutdown userdata stdin2) as H2.
  rewrite Hsame in H1. rewrite H2 in H1.
  destruct (NoMapStatemachine.execute is_shutdown userdata stdin1) as [[e1 u1] r1].
  destruct (NoMapStatemachine.execute is_shutdown userdata stdin2) as [[e2 u2] r2].
  injection H1 as -> -> _. reflexivity.
Qed.

Lemma user_input_reads_only_commands_witness :
  let userdata := NoMapStatemachine.mkUserData None None None None None in
  let stdin1 := ["grasp"; "G"; ""; "1"; "q"] in
  NoMapStatemachine.commands_of stdin1 = ["g"; "1"; "q"] /\
  fst (NoMapStatemachine.execute (fun _ => false) userdata stdin1)
  = fst (NoMapStatemachine.execute (fun _ => false) userdata ["g"; "1"; "q"]).
Proof.
  intros userdata stdin1. split; [reflexivity|].
  apply (user_input_reads_only_commands (fun _ => false) userdata stdin1
           ["g"; "1"; "q"]).
  reflexivity.
Defined.

(** Whatever is typed, [UserInput.execute] returns one of the outcomes the
    state registers, and the state machine of [main] has a transition for
    it. *)
Theorem user_input_outcome_has_transition
  (is_shutdown : nat -> bool) (userdata : NoMapStatemachine.UserData)
  (stdin : list string) :
  match fst (fst (NoMapStatemachine.execute is_shutdown userdata stdin)) with
  | NoMapStatemachine.Returned outcome =>
      In outcome NoMapStatemachine.UserInput_outcomes /\
      exists target, NoMapStatemachine.transition "USER_INPUT" outcome = Some target
  | _ => True
  end.
Proof.
  destruct (NoMapStatemachine.execute is_shutdown userdata stdin) as [[e u] rest] eqn:H.
  apply execute_invariant in H. destruct H as (_ & _ & H).
  cbn [fst]. destruct e as [outcome| |]; [|exact I|exact I].
  destruct H as (Hin & _). split; [exact Hin|].
  simpl in Hin.
  repeat destruct Hin as [<-|Hin]; try (eexists; reflexivity). contradiction.
Qed.

(** What the prompt leaves in the userdata.  It never touches the grasp pose
    and always lists the four object names.  It returns [grasping] only with
    method 1, grasp height 0.05 and safety distance 0.14, [find_grasp] only
    with method 1, and [execute_grasp] only when a grasp pose is there. *)
Theorem user_input_userdata
  (is_shutdown : nat -> bool) (userdata : NoMapStatemachine.UserData)
  (stdin : list string) :
  let r := NoMapStatemachine.execute is_shutdown userdata stdin in
  let u := snd (fst r) in
  NoMapStatemachine.found_grasp_pose u = NoMapStatemachine.found_grasp_pose userdata /\
  NoMapStatemachine.objects_to_find u
  = Some ["apple"; "sports ball"; "orange"; "bottle"] /\
  (fst (fst r) = NoMapStatemachine.Returned "grasping" ->
   NoMapStatemachine.find_grasppoint_method u = Some 1%Z /\
   NoMapStatemachine.grasp_height u = Some 0.05 /\
   NoMapStatemachine.safety_distance u = Some 0.14) /\
  (fst (fst r) = NoMapStatemachine.Returned "find_grasp" ->
   NoMapStatemachine.find_grasppoint_method u = Some 1%Z) /\
  (fst (fst r) = NoMapStatemachine.Returned "execute_grasp" ->
   NoMapStatemachine.found_grasp_pose userdata <> None).
Proof.
  intros r u. subst u r.
  destruct (NoMapStatemachine.execute is_shutdown userdata stdin) as [[e u] rest] eqn:H.
  apply execute_invariant in H. destruct H as (Hpose & Hobj & H).
  cbn [fst snd]. split; [exact Hpose|]. split; [exact Hobj|].
  split; [|split]; intros ->; destruct H as (_ & Hg & Hf & He).
  - apply Hg. reflexivity.
  - apply Hf. reflexivity.
  - apply He. reflexivity.
Qed.

(** ** The state machine of [main] *)

Section MachineFacts.

Import NoMapStatemachine.

Lemma lookup_In {V : Type} (key : string) (d : list (string * V)) (v : V) :
  lookup key d = Some v -> In (key, v) d.
Proof.
  induction d as [|[k v'] d IH]; [discriminate|].
  cbn [lookup]. destruct (String.eqb_spec key k) as [->|Hne].
  - intros H. injection H as ->. left. reflexivity.
  - intros H. right. exact (IH H).
Qed.

(** A transition that is taken is an entry of the table. *)
Lemma transition_In (label outcome target : string) :
  transition label outcome = Some target ->
  exists transitions,
    In (label, transitions) states /\ In (outcome, target) transitions.
Proof.
  unfold transition. destruct (lookup label states) as [transitions|] eqn:Hl;
    [|discriminate].
  intros H. exists transitions. split; apply lookup_In; assumption.
Qed.

Ltac each_transition H :=
  destruct (transition_In _ _ _ H) as (transitions & Hstate & Hentry);
  simpl in Hstate;
  repeat destruct Hstate as [Hstate|Hstate];
  try contradiction;
  inversion Hstate; subst; clear Hstate;
  simpl in Hentry;
  repeat destruct Hentry as [Hentry|Hentry];
  try contradiction;
  inversion Hentry; subst; clear Hentry.

(** No transition of the machine dangles: its target is a state of the
    machine, or the machine's outcome [end]. *)
Theorem machine_transitions_closed (label outcome target : string) :
  transition label outcome = Some target ->
  In target sm_outcomes \/ exists transitions, lookup target states = Some transitions.
Proof.
  intros H. each_transition H;
    first [left; simpl; tauto | right; eexists; reflexivity].
Qed.

(** The machine ends only when [USER_INPUT] returns [quitting]. *)
Theorem machine_ends_only_on_quitting (label outcome : string) :
  transition label outcome = Some "end" ->
  label = "USER_INPUT" /\ outcome = "quitting".
Proof.
  intros H. pose proof H as H'. each_transition H'; try discriminate H.
  split; reflexivity.
Qed.

(** Every action that is aborted or preempted hands control back to
    [USER_INPUT]. *)
Theorem failed_action_returns_to_user_input (label outcome target : string) :
  outcome = "aborted" \/ outcome = "preempted" ->
  transition label outcome = Some target -> target = "USER_INPUT".
Proof.
  intros Ho H. each_transition H; try reflexivity;
    destruct Ho as [Ho|Ho]; discriminate Ho.
Qed.

Lemma back_within_6 (label : string) : back_within 6 label = true.
Proof.
  change (back_within 6 label)
    with (match lookup label states with
          | None => true
          | Some transitions =>
              forallb (fun t => (snd t =? "USER_INPUT")
                                || existsb (String.eqb (snd t)) sm_outcomes
                                || back_within 5 (snd t))
                      transitions
          end).
  destruct (lookup label states) as [transitions|] eqn:Hl; [|reflexivity].
  apply lookup_In in Hl. simpl in Hl.
  repeat destruct Hl as [Hl|Hl]; try contradiction;
    injection Hl as <- <-; reflexivity.
Qed.

Lemma back_within_run (n : nat) (label : string) (outcomes : list string) :
  back_within n label = true ->
  (n <= List.length (run label outcomes))%nat ->
  In "USER_INPUT" (firstn n (run label outcomes)) \/
  In "end" (firstn n (run label outcomes)).
Proof.
  revert label outcomes. induction n as [|n IH]; intros label outcomes Hback Hlen;
    [discriminate|].
  destruct outcomes as [|outcome rest]; [simpl in Hlen; lia|].
  cbn [run] in *. unfold transition in *. cbn [back_within] in Hback.
  destruct (lookup label states) as [transitions|]; [|simpl in Hlen; lia].
  destruct (lookup outcome transitions) as [target|] eqn:Ht; [|simpl in Hlen; lia].
  apply lookup_In in Ht. rewrite forallb_forall in Hback.
  specialize (Hback _ Ht). cbn [snd] in Hback.
  destruct (existsb (String.eqb target) sm_outcomes) eqn:Hend.
  - right. simpl in Hend. rewrite orb_false_r in Hend.
    apply String.eqb_eq in Hend. subst target. left. reflexivity.
  - rewrite orb_false_r in Hback. apply orb_true_iff in Hback.
    destruct Hback as [Hu|Hback].
    + left. apply String.eqb_eq in Hu. subst target. left. reflexivity.
    + cbn [List.length] in Hlen.
      destruct (IH target rest Hback ltac:(lia)) as [H|H];
        [left | right]; right; exact H.
Qed.

End MachineFacts.

Lemma machine_transitions_closed_witness :
  NoMapStatemachine.transition "EXECUTE_GRASP" "succeeded"
  = Some "NEUTRAL_BEFORE_HANDOVER" /\
  (In "NEUTRAL_BEFORE_HANDOVER" NoMapStatemachine.sm_outcomes \/
   exists transitions,
     NoMapStatemachine.lookup "NEUTRAL_BEFORE_HANDOVER" NoMapStatemachine.states
     = Some transitions).
Proof.
  split; [reflexivity|].
  apply (machine_transitions_closed "EXECUTE_GRASP" "succeeded"). reflexivity.
Defined.

Lemma machine_ends_only_on_quitting_witness :
  NoMapStatemachine.transition "USER_INPUT" "quitting" = Some "end" /\
  "USER_INPUT" = "USER_INPUT" /\ "quitting" = "quitting".
Proof.
  split; [reflexivity|].
  apply (machine_ends_only_on_quitting "USER_INPUT" "quitting"). reflexivity.
Defined.

Lemma failed_action_returns_to_user_input_witness :
  ("aborted" = "aborted" \/ "aborted" = "preempted") /\
  NoMapStatemachine.transition "HANDOVER" "aborted" = Some "USER_INPUT" /\
  "USER_INPUT" = "USER_INPUT".
Proof.
  split; [left; reflexivity|]. split; [reflexivity|].
  apply (failed_action_returns_to_user_input "HANDOVER" "aborted" "USER_INPUT").
  - left. reflexivity.
  - reflexivity.
Defined.

(** The operator is asked again soon: whatever the states return, among the
    first six states the machine enters from any state is [USER_INPUT], or
    the machine has ended. *)
Theorem machine_back_at_user_input_within_six (label : string) (outcomes : list string) :
  (6 <= List.length (NoMapStatemachine.run label outcomes))%nat ->
  In "USER_INPUT" (firstn 6 (NoMapStatemachine.run label outcomes)) \/
  In "end" (firstn 6 (NoMapStatemachine.run label outcomes)).
Proof.
  intros Hlen. apply back_within_run; [|exact Hlen]. apply back_within_6.
Qed.

(** The longest way round: a grasp with a handover. *)
Lemma machine_back_at_user_input_within_six_witness :
  let outcomes := ["grasping"; "succeeded"; "succeeded"; "succeeded"; "succeeded";
                   "succeeded"; "quitting"] in
  NoMapStatemachine.run "USER_INPUT" outcomes
  = ["FIND_GRASPPOINT"; "EXECUTE_GRASP"; "NEUTRAL_BEFORE_HANDOVER"; "HANDOVER";
     "GO_TO_NEUTRAL"; "USER_INPUT"; "end"] /\
  (In "USER_INPUT" (firstn 6 (NoMapStatemachine.run "USER_INPUT" outcomes)) \/
   In "end" (firstn 6 (NoMapStatemachine.run "USER_INPUT" outcomes))).
Proof.
  intros outcomes. split; [reflexivity|].
  apply (machine_back_at_user_input_within_six "USER_INPUT" outcomes).
  simpl. lia.
Defined.
